(** * Flamenco Worker: the durable upstream update queue

    A shallow embedding of [flamenco_worker/upstream_update_queue.py]
    (class [TaskUpdateQueue]) together with the two scenarios of the test
    suite that concern the may-I-run poller and the render-audio command.

    Conventions of the embedding.

    - The SQLite table [fworker_queue(url TEXT, payload BLOB)] is a list of
      rows, each carrying its implicit [rowid].  A table that does not exist
      yet is the empty list: every access goes through [_connect_db], whose
      [CREATE TABLE IF NOT EXISTS] makes the two indistinguishable.
    - A row keeps the rowid it was given.  The VACUUM that [_connect_db]
      runs may renumber the implicit rowids of the stored rows (it keeps
      their order), so what is stated about the value of a rowid is stated
      for an open connection.
    - [pickle.dumps] / [pickle.loads] and the Manager behind
      [upstream.FlamencoManager.post] are parameters of the development;
      payloads are taken to be picklable and the store to accept the
      insert, so the errors [queue] passes on from these two are not
      modelled.
    - Python exceptions are an outcome of every operation; coroutines are
      run sequentially (one drain pass at a time, which is what
      [_queue_lock] enforces), and the [_log] calls, which touch neither the
      store nor the event, are left out.
    - Every POST (with what came back), every [_unqueue], every
      [asyncio.sleep] and every timed-out wait is recorded, in order, in a
      trace. *)

From Stdlib Require Import ZArith List String Ascii Bool Lia QArith.
From Stdlib Require Import DecimalString Sorted Permutation.
Import ListNotations.
Local Open Scope Z_scope.

Set Implicit Arguments.
Set Warnings "-notation-for-abbreviation".

(** ** Exceptions and outcomes *)

Inductive exn : Type :=
| ConnectionError                (* requests.ConnectionError *)
| HTTPError (status : Z)         (* requests.HTTPError, from raise_for_status *)
| OtherException (what : string) (* any other subclass of Exception *).

Inductive outcome (A : Type) : Type :=
| Returned (a : A)
| Raised (e : exn).
Arguments Raised {A} e.

(** requests.Response, as far as the queue looks at it. *)
Record Response : Type := mkResponse {
  status_code : Z;
  text : string
}.

(** ** Module constants *)

Definition BACKOFF_TIME : Q := 5.            (* seconds *)
Definition SHUTDOWN_RECHECK_TIME : Q := 1 # 2. (* seconds *)

Section UpdateQueue.

(** The payload objects handed to [queue], their pickled form, and the
    Manager the worker talks to. *)
Variable Payload : Type.
Variable Blob : Type.
Variable pickle_dumps : Payload -> Blob.
Variable pickle_loads : Blob -> Payload.

Variable Manager : Type.
(** [manager.post(url, json=payload)]: either raises or returns a response;
    the Manager may change state while serving the request. *)
Variable manager_post :
  Manager -> string -> Payload -> outcome Response * Manager.

(** ** Data model *)

(** One row of [fworker_queue]. *)
Record Row : Type := mkRow {
  rowid : Z;
  url : string;
  payload : Blob
}.

Inductive connection : Type := Connection.

(** The attributes of [TaskUpdateQueue] that the queue reads or writes,
    plus the table stored in the file [db_fname]. *)
Record TaskUpdateQueue : Type := mkTaskUpdateQueue {
  manager : Manager;
  backoff_time : Q;
  shutdown_recheck_time : Q;
  _stuff_queued : bool;
  _db : option connection;
  fworker_queue : list Row
}.

Inductive event : Type :=
| EvPost (u : string) (p : Payload) (r : outcome Response)
| EvUnqueue (i : Z)
| EvSleep (seconds : Q)
| EvTimeout (seconds : Q).

Record World : Type := mkWorld {
  self : TaskUpdateQueue;
  trace : list event
}.

(** ** A state-and-exception monad for the methods *)

Definition Py (A : Type) : Type := World -> outcome A * World.

Definition ret {A} (a : A) : Py A := fun w => (Returned a, w).

Definition bind {A B} (m : Py A) (k : A -> Py B) : Py B :=
  fun w =>
    match m w with
    | (Returned a, w') => k a w'
    | (Raised e, w') => (Raised e, w')
    end.

Definition raise {A} (e : exn) : Py A := fun w => (Raised e, w).

(** [try: m except Exception as e: h e] *)
Definition try_except {A} (m : Py A) (h : exn -> Py A) : Py A :=
  fun w =>
    match m w with
    | (Returned a, w') => (Returned a, w')
    | (Raised e, w') => h e w'
    end.

Notation "x <- m ;; k" := (bind m (fun x => k))
  (at level 61, m at next level, right associativity).
Notation "' pat <- m ;; k" :=
  (bind m (fun x => match x with pat => k end))
  (at level 61, pat pattern, m at next level, right associativity).
Notation "m ;;; k" := (bind m (fun _ => k))
  (at level 61, right associativity).

Definition get_self : Py TaskUpdateQueue := fun w => (Returned (self w), w).

Definition modify_self (f : TaskUpdateQueue -> TaskUpdateQueue) : Py unit :=
  fun w => (Returned tt, mkWorld (f (self w)) (trace w)).

Definition emit (e : event) : Py unit :=
  fun w => (Returned tt, mkWorld (self w) (trace w ++ [e])).

(** Field updates. *)
Definition set_manager (m : Manager) (q : TaskUpdateQueue) :=
  mkTaskUpdateQueue m (backoff_time q) (shutdown_recheck_time q)
    (_stuff_queued q) (_db q) (fworker_queue q).
Definition set_stuff_queued (b : bool) (q : TaskUpdateQueue) :=
  mkTaskUpdateQueue (manager q) (backoff_time q) (shutdown_recheck_time q)
    b (_db q) (fworker_queue q).
Definition set_db (c : option connection) (q : TaskUpdateQueue) :=
  mkTaskUpdateQueue (manager q) (backoff_time q) (shutdown_recheck_time q)
    (_stuff_queued q) c (fworker_queue q).
Definition set_table (t : list Row) (q : TaskUpdateQueue) :=
  mkTaskUpdateQueue (manager q) (backoff_time q) (shutdown_recheck_time q)
    (_stuff_queued q) (_db q) t.

(** The attrs-generated constructor: [backoff_time] and
    [shutdown_recheck_time] default to the module constants, the event
    starts cleared and no connection is open.  [table] is what the file
    [db_fname] holds. *)
Definition TaskUpdateQueue_init (m : Manager) (table : list Row)
    (backoff : option Q) (recheck : option Q) : TaskUpdateQueue :=
  mkTaskUpdateQueue m
    (match backoff with Some t => t | None => BACKOFF_TIME end)
    (match recheck with Some t => t | None => SHUTDOWN_RECHECK_TIME end)
    false None table.

(** ** SQL statements on the table *)

(** The rowid SQLite gives to an inserted row: one more than the largest
    rowid in the table, 1 for an empty table.  This is for the positive
    rowids that [queue] hands out, below the largest rowid SQLite has. *)
Definition next_rowid (t : list Row) : Z :=
  fold_right (fun r m => Z.max (rowid r) m) 0 t + 1.

(** [INSERT INTO fworker_queue (url, payload) values (?, ?)] *)
Definition sql_insert (u : string) (b : Blob) (t : list Row) : list Row :=
  t ++ [mkRow (next_rowid t) u b].

(** [ORDER BY rowid ASC] *)
Fixpoint insert_by_rowid (r : Row) (t : list Row) : list Row :=
  match t with
  | [] => [r]
  | r' :: t' =>
      if rowid r <=? rowid r' then r :: t else r' :: insert_by_rowid r t'
  end.

(** [SELECT rowid, url, payload FROM fworker_queue ORDER BY rowid ASC] *)
Definition sql_select_ordered (t : list Row) : list Row :=
  fold_right insert_by_rowid [] t.

(** SELECT count FROM fworker_queue: the number of rows *)
Definition sql_count (t : list Row) : Z := Z.of_nat (List.length t).

(** [DELETE FROM fworker_queue WHERE rowid=?] *)
Definition sql_delete (i : Z) (t : list Row) : list Row :=
  filter (fun r => negb (rowid r =? i)) t.

(** ** The methods of TaskUpdateQueue *)

(** [_connect_db]: opens the connection; creating the table if it does not
    exist leaves the rows as they are, and so does VACUUM but for the
    numbering of their rowids (see the conventions above). *)
Definition _connect_db : Py unit :=
  modify_self (set_db (Some Connection)).

(** [AttributeError: 'NoneType' object has no attribute ...], raised by
    the methods that use [self._db] without connecting first. *)
Definition AttributeError : exn := OtherException "AttributeError".

(** [_disconnect_db]: [self._db.close()] needs a connection. *)
Definition _disconnect_db : Py unit :=
  q <- get_self ;;
  match _db q with
  | None => raise AttributeError
  | Some _ => modify_self (set_db None)
  end.

(** [if self._db is None: self._connect_db()] *)
Definition ensure_db : Py unit :=
  q <- get_self ;;
  match _db q with
  | None => _connect_db
  | Some _ => ret tt
  end.

(** [queue(url, payload)]: push some payload onto the queue. *)
Definition queue (u : string) (p : Payload) : Py unit :=
  ensure_db ;;;
  let pickled := pickle_dumps p in
  modify_self (fun q => set_table (sql_insert u pickled (fworker_queue q)) q) ;;;
  modify_self (set_stuff_queued true).

(** [queue] called for each update of a list, in order. *)
Fixpoint queue_all (us : list (string * Payload)) : Py unit :=
  match us with
  | [] => ret tt
  | (u, p) :: rest => queue u p ;;; queue_all rest
  end.

(** [_queue()]: the (rowid, url, unpickled payload) tuples, by ascending
    rowid.  The generator is consumed by the loop of [flush], which deletes
    only rows it has already been given; with rowids unique the remaining
    rows of the cursor are those selected here. *)
Definition _queue : Py (list (Z * string * Payload)) :=
  ensure_db ;;;
  q <- get_self ;;
  ret (map (fun row => (rowid row, url row, pickle_loads (payload row)))
           (sql_select_ordered (fworker_queue q))).

(** [queue_size()] *)
Definition queue_size : Py Z :=
  ensure_db ;;;
  q <- get_self ;;
  ret (sql_count (fworker_queue q)).

(** [_unqueue(rowid)]: it does not connect by itself, [self._db.execute]
    needs a connection. *)
Definition _unqueue (i : Z) : Py unit :=
  q <- get_self ;;
  match _db q with
  | None => raise AttributeError
  | Some _ =>
      modify_self (fun q => set_table (sql_delete i (fworker_queue q)) q) ;;;
      emit (EvUnqueue i)
  end.

(** [await self.manager.post(url, json=payload, loop=loop)] *)
Definition post (u : string) (p : Payload) : Py Response :=
  q <- get_self ;;
  let '(r, m') := manager_post (manager q) u p in
  modify_self (set_manager m') ;;;
  emit (EvPost u p r) ;;;
  match r with
  | Returned resp => ret resp
  | Raised e => raise e
  end.

(** [resp.raise_for_status()] of the requests library: HTTPError for a
    status in 400..599, nothing otherwise. *)
Definition raise_for_status (resp : Response) : Py unit :=
  if (400 <=? status_code resp) && (status_code resp <? 600)
  then raise (HTTPError (status_code resp))
  else ret tt.

(** The [for rowid, url, payload in self._queue():] loop of [flush], with
    the two locals it assigns; leaving the match is the end of the
    iteration or the [break]. *)
Fixpoint flush_loop (items : list (Z * string * Payload))
    (queue_is_empty : bool) (handled : Z) : Py (bool * Z) :=
  match items with
  | [] => ret (queue_is_empty, handled)
  | (i, u, p) :: rest =>
      let queue_is_empty := false in
      _ <- queue_size ;;
      resp <- post u p ;;
      (if status_code resp =? 409
       then ret tt              (* discarding update *)
       else raise_for_status resp) ;;;
      _unqueue i ;;;
      let handled := handled + 1 in
      if handled >? 1000
      then ret (queue_is_empty, handled)   (* break *)
      else flush_loop rest queue_is_empty handled
  end.

(** [flush]: tries to flush the queue to the Manager. *)
Definition flush : Py bool :=
  let queue_is_empty := true in
  queue_size_before <- queue_size ;;
  let handled := 0 in
  items <- _queue ;;
  '(queue_is_empty, handled) <- flush_loop items queue_is_empty handled ;;
  (if queue_is_empty : bool
   then modify_self (set_stuff_queued false)
   else ret tt) ;;;
  queue_size_after <- queue_size ;;
  ret queue_is_empty.

(** [asyncio.sleep(t)] *)
Definition sleep (t : Q) : Py unit := emit (EvSleep t).

(** [flush_and_report]: flushes the queue and just reports errors. *)
Definition flush_and_report : Py unit :=
  try_except (flush ;;; ret tt) (fun _ => ret tt).

(** [flush_and_catch]: flushes the queue, reports errors and waits before
    returning for another try.  The three handlers differ in the message
    they log only. *)
Definition flush_and_catch : Py unit :=
  try_except (flush ;;; ret tt)
    (fun e =>
       match e with
       | ConnectionError => q <- get_self ;; sleep (backoff_time q)
       | HTTPError _ => q <- get_self ;; sleep (backoff_time q)
       | OtherException _ => q <- get_self ;; sleep (backoff_time q)
       end).

(** [asyncio.wait_for(self._stuff_queued.wait(), self.shutdown_recheck_time)]:
    it returns at once when the event is set; no producer runs during the
    wait, so a cleared event stays cleared and the wait times out. *)
Definition wait_for_stuff_queued : Py bool :=
  q <- get_self ;;
  if _stuff_queued q then ret true
  else emit (EvTimeout (shutdown_recheck_time q)) ;;; ret false.

(** The [while not self.shutdown_future.done():] loop of [work]; [rounds]
    is the number of times the future is found not done. *)
Fixpoint work_loop (rounds : nat) : Py unit :=
  match rounds with
  | O => ret tt
  | S n =>
      queued <- wait_for_stuff_queued ;;
      if queued : bool
      then flush_and_catch ;;; work_loop n
      else work_loop n                     (* TimeoutError: continue *)
  end.

(** [work]: the loop that pushes queued payloads to the Manager. *)
Definition work (rounds : nat) : Py unit :=
  modify_self (set_stuff_queued true) ;;;
  work_loop rounds.

(** ** Vocabulary for the statements *)

(** The tuple [_queue] yields for a row. *)
Definition item (row : Row) : Z * string * Payload :=
  (rowid row, url row, pickle_loads (payload row)).

(** The request a row is POSTed as. *)
Definition request (row : Row) : string * Payload :=
  (url row, pickle_loads (payload row)).

(** A response after which the loop of [flush] goes on to [_unqueue]: its
    status is 409 or [raise_for_status] lets it pass. *)
Definition accepted (resp : Response) : bool :=
  (status_code resp =? 409)
  || negb ((400 <=? status_code resp) && (status_code resp <? 600)).

(** What a POST that ends the pass came back with, and the exception the
    pass then raises. *)
Definition failed_with (r : outcome Response) (e : exn) : Prop :=
  r = Raised e \/
  exists resp, r = Returned resp /\ accepted resp = false /\
               e = HTTPError (status_code resp).

(** The trace of rows handled one after the other, each POSTed, answered
    and unqueued. *)
Definition handled_events (rows : list Row) (rs : list Response)
  : list event :=
  flat_map
    (fun rr =>
       [EvPost (url (fst rr)) (pickle_loads (payload (fst rr)))
          (Returned (snd rr));
        EvUnqueue (rowid (fst rr))])
    (combine rows rs).

(** The requests POSTed along a trace, in order. *)
Definition posts (tr : list event) : list (string * Payload) :=
  flat_map
    (fun e => match e with EvPost u p _ => [(u, p)] | _ => [] end) tr.

(** The rowids unqueued along a trace, in order. *)
Definition unqueued (tr : list event) : list Z :=
  flat_map (fun e => match e with EvUnqueue i => [i] | _ => [] end) tr.

(** The rows of a table as SQLite keeps them: rowids are unique, and since
    a new row gets a rowid above all present ones, they ascend in insertion
    order. *)
Definition table_ok (t : list Row) : Prop :=
  StronglySorted Z.lt (map rowid t).

(** The world once [if self._db is None: self._connect_db()] has run. *)
Definition connected (w : World) : World :=
  mkWorld (set_db (Some Connection) (self w)) (trace w).

(** The tuples [_queue] yields for updates queued one after the other, the
    first of them getting rowid [i]. *)
Fixpoint numbered (i : Z) (us : list (string * Payload))
  : list (Z * string * Payload) :=
  match us with
  | [] => []
  | (u, p) :: rest => (i, u, p) :: numbered (i + 1) rest
  end.

(** Attributes no drain pass assigns. *)
Definition same_settings (q q' : TaskUpdateQueue) : Prop :=
  backoff_time q' = backoff_time q /\
  shutdown_recheck_time q' = shutdown_recheck_time q.

End UpdateQueue.

Arguments EvUnqueue {Payload} i.
Arguments EvSleep {Payload} seconds.
Arguments EvTimeout {Payload} seconds.

(** ** The may-I-run poller *)

Module MayIRun.

(** The JSON document answered on [GET /may-i-run/<task_id>]. *)
Record Answer : Type := mkAnswer {
  may_keep_running : bool;
  reason : option string;
  status_requested : option string
}.

(** The calls received by the worker, as [unittest.mock.Mock] records
    them. *)
Inductive worker_call : Type :=
| change_status (s : string)
| stop_current_task.

(** The fixture of [MayIRunTest]: the answers still held by the deque of
    [_mock_get], the paths requested so far, and the calls on the worker. *)
Record Fixture : Type := mkFixture {
  values : list Answer;
  requested : list string;
  worker_calls : list worker_call
}.

(** Modelled from the spec: [flamenco_worker/may_i_run.py] is not part of
    the sources at hand.  [may_i_run(task_id)] issues
    [GET /may-i-run/<task_id>]; on [may_keep_running=true] nothing happens
    and the answer is true; on [may_keep_running=false] with
    [status_requested=s] it calls [worker.change_status(s)] and answers
    false; on [may_keep_running=false] alone it answers false.  [None] is
    the exception raised by the mocked GET when its deque is empty. *)
Definition may_i_run (task_id : string) (f : Fixture) : option bool * Fixture :=
  let path := ("/may-i-run/" ++ task_id)%string in
  match values f with
  | [] => (None, mkFixture [] (requested f ++ [path]) (worker_calls f))
  | a :: rest =>
      let f1 := mkFixture rest (requested f ++ [path]) (worker_calls f) in
      if may_keep_running a then (Some true, f1)
      else
        match status_requested a with
        | Some s =>
            (Some false,
             mkFixture rest (requested f1) (worker_calls f1 ++ [change_status s]))
        | None => (Some false, f1)
        end
  end.

(** The status of [test_go_asleep], as the UTF-8 bytes of its six
    Cyrillic letters. *)
Definition Sergey : string :=
  string_of_list_ascii
    (map (fun n => ascii_of_nat n)
       [208; 161; 208; 181; 209; 128; 208; 179; 208; 181; 208; 185]%nat).

End MayIRun.

(** ** The render-audio command *)

Module RenderAudio.

Local Open Scope string_scope.

Record Settings : Type := mkSettings {
  blender_cmd : string;
  frame_start : Z;
  frame_end : Z;
  filepath : string;
  render_output : string
}.

(** The special values of the [subprocess] module. *)
Inductive stream : Type := DEVNULL | PIPE | STDOUT.

(** One call of [asyncio.create_subprocess_exec]. *)
Record Spawn : Type := mkSpawn {
  argv : list string;
  stdin : stream;
  stdout : stream;
  stderr : stream
}.

Definition dquote : ascii := ascii_of_nat 34.
Definition squote : ascii := ascii_of_nat 39.
Definition newline : string := String (ascii_of_nat 10) EmptyString.

Definition is_space (c : ascii) : bool :=
  let n := nat_of_ascii c in
  (n =? 32)%nat || (n =? 9)%nat || (n =? 10)%nat || (n =? 13)%nat.

Inductive quoting : Type := Unquoted | InDouble | InSingle.

Definition token (t : list ascii) : string := string_of_list_ascii (rev t).

Definition started (tok : option (list ascii)) : list ascii :=
  match tok with Some t => t | None => [] end.

(** Modelled from the spec: the command its settings name is split into
    words the way a shell does it, as scenario S1 shows
    ([--cli="args for CLI"] is the one word [--cli=args for CLI]): blanks
    separate words, and a quoted stretch belongs to the word around it, its
    quotes dropped. *)
Fixpoint split_words (cs : list ascii) (q : quoting)
    (tok : option (list ascii)) : list string :=
  match cs with
  | [] => match tok with Some t => [token t] | None => [] end
  | c :: cs' =>
      match q with
      | Unquoted =>
          if is_space c then
            match tok with
            | Some t => token t :: split_words cs' Unquoted None
            | None => split_words cs' Unquoted None
            end
          else if Ascii.eqb c dquote then
            split_words cs' InDouble (Some (started tok))
          else if Ascii.eqb c squote then
            split_words cs' InSingle (Some (started tok))
          else split_words cs' Unquoted (Some (c :: started tok))
      | InDouble =>
          if Ascii.eqb c dquote then split_words cs' Unquoted tok
          else split_words cs' InDouble (Some (c :: started tok))
      | InSingle =>
          if Ascii.eqb c squote then split_words cs' Unquoted tok
          else split_words cs' InSingle (Some (c :: started tok))
      end
  end.

Definition shlex_split (s : string) : list string :=
  split_words (list_ascii_of_string s) Unquoted None.

(** A character that stands for itself in a shell word. *)
Definition plain (c : ascii) : bool :=
  negb (is_space c) && negb (Ascii.eqb c dquote) && negb (Ascii.eqb c squote).

Definition plain_text (s : string) : bool :=
  forallb plain (list_ascii_of_string s).

(** A text that can stand between double quotes. *)
Definition quotable (s : string) : bool :=
  forallb (fun c => negb (Ascii.eqb c dquote)) (list_ascii_of_string s).

(** A command line as a setting gives it: the words [ws], one blank after
    each, then a last word made of [w] and, in double quotes, [q]. *)
Definition command_line (ws : list string) (w q : string) : string :=
  String.concat " "
    (ws ++ [w ++ String dquote (q ++ String dquote EmptyString)]).

(** [str(n)] for an integer. *)
Definition str (n : Z) : string := NilZero.string_of_int (Z.to_int n).

(** Modelled from the spec: the script handed to [--python-expr], as
    scenario S1 and [expected_script] of the test give it: it sets
    [frame_start] and [frame_end], mixes the sound down to [render_output]
    as FLAC in a FLAC container with accuracy 128, and quits. *)
Definition audio_script (s : Settings) : string :=
  String.concat newline
    [ "import bpy";
      "bpy.context.scene.frame_start = " ++ str (frame_start s);
      "bpy.context.scene.frame_end = " ++ str (frame_end s);
      "bpy.ops.sound.mixdown(filepath='" ++ render_output s
        ++ "', codec='FLAC', container='FLAC', accuracy=128)";
      "bpy.ops.wm.quit_blender()" ].

(** Modelled from the spec: [commands.BlenderRenderAudioCommand] is not
    part of the sources at hand.  The runner composes the argv from the
    split [blender_cmd], the fixed switches, the blend file, the exit code
    47 for a failing script and the script itself, and spawns the child
    with stdin closed and stderr merged into the stdout pipe. *)
Definition run (s : Settings) : Spawn :=
  mkSpawn
    (shlex_split (blender_cmd s) ++
     [ "--enable-autoexec"; "-noaudio"; "--background"; filepath s;
       "--python-exit-code"; "47";
       "--python-expr"; audio_script s ])
    DEVNULL PIPE STDOUT.

(** [expected_script] of [tests/test_commands_blender_render_audio.py]. *)
Definition expected_script : string :=
  "import bpy" ++ newline ++
  "bpy.context.scene.frame_start = 1" ++ newline ++
  "bpy.context.scene.frame_end = 47" ++ newline ++
  "bpy.ops.sound.mixdown(filepath='/tmp/output.flac', codec='FLAC', container='FLAC', accuracy=128)"
  ++ newline ++
  "bpy.ops.wm.quit_blender()".

(** The settings of scenario S1. *)
Definition S1_settings : Settings :=
  mkSettings
    ("/usr/bin/blender --with --cli=" ++ String dquote "args for CLI"
       ++ String dquote EmptyString)
    1 47 "/x/f.blend" "/tmp/output.flac".

End RenderAudio.

(** ** A concrete worker, for examples *)

Module Scenario.

Local Open Scope string_scope.

(** Payloads are strings; pickling spells a string out as characters. *)
Definition Payload : Type := string.
Definition Blob : Type := list ascii.
Definition pickle_dumps : Payload -> Blob := list_ascii_of_string.
Definition pickle_loads : Blob -> Payload := string_of_list_ascii.

(** A scripted Manager: it answers the requests with the outcomes it was
    given, in turn, and with 200 once these are used up. *)
Definition Manager : Type := list (outcome Response).

Definition answer (status : Z) : outcome Response :=
  Returned (mkResponse status "answer").

Definition manager_post (m : Manager) (u : string) (p : Payload)
  : outcome Response * Manager :=
  match m with
  | [] => (answer 200, [])
  | r :: m' => (r, m')
  end.

Definition new_queue (m : Manager) : TaskUpdateQueue Blob Manager :=
  TaskUpdateQueue_init m [] None None.

Definition start (m : Manager) : World Payload Blob Manager :=
  mkWorld (new_queue m) [].

(** The world after [queue] was called for each update, in order. *)
Definition enqueue_all (us : list (string * Payload))
    (w : World Payload Blob Manager) : World Payload Blob Manager :=
  snd (queue_all pickle_dumps us w).

Definition update (n : nat) : string * Payload :=
  ("/tasks/12345/update", RenderAudio.str (Z.of_nat n)).

(** The updates numbered 1 to [n]. *)
Definition updates (n : nat) : list (string * Payload) :=
  map update (seq 1 n).

Definition run_flush := flush pickle_loads manager_post.
Definition run_flush_and_catch := flush_and_catch pickle_loads manager_post.

End Scenario.

(** ** A Manager that accepts everything, for examples *)

Module Accepting.

Definition Manager : Type := unit.

Definition manager_post (m : Manager) (u : string) (p : Scenario.Payload)
  : outcome Response * Manager :=
  (Scenario.answer 200, tt).

Definition start : World Scenario.Payload Scenario.Blob Manager :=
  mkWorld (TaskUpdateQueue_init tt [] None None) [].

(** The world after [queue] was called for the updates 1 to [n]. *)
Definition queued (n : nat) : World Scenario.Payload Scenario.Blob Manager :=
  snd (queue_all Scenario.pickle_dumps (Scenario.updates n) start).

End Accepting.

(** ** Cleaning the scratch directory of the worker application

    [clean_dir] of [flamenco/worker/application/__init__.py].  A directory
    is the names of its files and its subdirectories, in the order
    [os.walk] lists them; there are no symbolic links, and removing a file
    never fails.  [os.rmdir] raises OSError on a directory that is not
    empty. *)

Module CleanDir.

Local Open Scope string_scope.

Inductive dir : Type :=
| Dir (files : list string) (subdirs : forest)
with forest : Type :=
| Fnil
| Fcons (name : string) (d : dir) (rest : forest).

Scheme dir_forest_ind := Induction for dir Sort Prop
  with forest_dir_ind := Induction for forest Sort Prop.
Combined Scheme dir_and_forest_ind from dir_forest_ind, forest_dir_ind.

(** The values [keep_job] is given: the default None, a job number, or a
    name. *)
Inductive pyvalue : Type :=
| PyNone
| PyInt (n : Z)
| PyStr (s : string).

(** [str(keep_job)], which is also what ["{0}".format(keep_job)] inserts. *)
Definition str (v : pyvalue) : string :=
  match v with
  | PyNone => "None"
  | PyInt n => NilZero.string_of_int (Z.to_int n)
  | PyStr s => s
  end.

Inductive result : Type :=
| Done
| OSError.

(** [name == "taskfile_{0}.zip".format(keep_job)] *)
Definition kept_file (keep_job : pyvalue) (name : string) : bool :=
  String.eqb name ("taskfile_" ++ str keep_job ++ ".zip").

(** [name == str(keep_job)] *)
Definition kept_dir (keep_job : pyvalue) (name : string) : bool :=
  String.eqb name (str keep_job).

Definition is_empty (d : dir) : bool :=
  match d with
  | Dir [] Fnil => true
  | _ => false
  end.

(** [for name in files: ...]: every file but the kept ones is removed. *)
Definition remove_files (keep_job : pyvalue) (files : list string)
  : list string :=
  filter (kept_file keep_job) files.

(** [for name in dirs: ...]: every directory but the kept ones is handed to
    [os.rmdir], which raises on the first that is not empty. *)
Fixpoint remove_dirs (keep_job : pyvalue) (f : forest) : result * forest :=
  match f with
  | Fnil => (Done, Fnil)
  | Fcons name d rest =>
      if kept_dir keep_job name then
        let (r, rest') := remove_dirs keep_job rest in
        (r, Fcons name d rest')
      else if is_empty d then remove_dirs keep_job rest
      else (OSError, f)
  end.

(** [for root, dirs, files in os.walk(cleardir, topdown=False):] with the
    body of the loop: the subdirectories are walked first, in order, then
    the files and the subdirectories of the directory itself are dealt
    with.  An OSError ends the walk where it is raised. *)
Fixpoint walk (keep_job : pyvalue) (d : dir) : result * dir :=
  match d with
  | Dir files subdirs =>
      match walk_subdirs keep_job subdirs with
      | (OSError, subdirs') => (OSError, Dir files subdirs')
      | (Done, subdirs') =>
          let files' := remove_files keep_job files in
          let (r, subdirs'') := remove_dirs keep_job subdirs' in
          (r, Dir files' subdirs'')
      end
  end
with walk_subdirs (keep_job : pyvalue) (f : forest) : result * forest :=
  match f with
  | Fnil => (Done, Fnil)
  | Fcons name d rest =>
      match walk keep_job d with
      | (OSError, d') => (OSError, Fcons name d' rest)
      | (Done, d') =>
          let (r, rest') := walk_subdirs keep_job rest in
          (r, Fcons name d' rest')
      end
  end.

(** [clean_dir(cleardir, keep_job=None)]; [None] for a [cleardir] that does
    not exist. *)
Definition clean_dir (cleardir : option dir) (keep_job : pyvalue)
  : result * option dir :=
  match cleardir with
  | None => (Done, None)
  | Some d => let (r, d') := walk keep_job d in (r, Some d')
  end.

(** *** Vocabulary for the statements *)

(** The directory holds, itself, a kept file or a kept directory. *)
Fixpoint has_kept_dir (keep_job : pyvalue) (f : forest) : bool :=
  match f with
  | Fnil => false
  | Fcons name _ rest => kept_dir keep_job name || has_kept_dir keep_job rest
  end.

Definition holds_kept (keep_job : pyvalue) (d : dir) : bool :=
  match d with
  | Dir files subdirs =>
      existsb (kept_file keep_job) files || has_kept_dir keep_job subdirs
  end.

(** Somewhere below the directory there is a directory, not a kept one,
    that holds a kept file or a kept directory. *)
Fixpoint blocked (keep_job : pyvalue) (d : dir) : bool :=
  match d with
  | Dir _ subdirs => blocked_in keep_job subdirs
  end
with blocked_in (keep_job : pyvalue) (f : forest) : bool :=
  match f with
  | Fnil => false
  | Fcons name d rest =>
      blocked keep_job d
      || (negb (kept_dir keep_job name) && holds_kept keep_job d)
      || blocked_in keep_job rest
  end.

(** What is kept of a directory: its kept files and its kept directories,
    and of these what is kept in turn. *)
Fixpoint survivors (keep_job : pyvalue) (d : dir) : dir :=
  match d with
  | Dir files subdirs =>
      Dir (filter (kept_file keep_job) files) (survivors_in keep_job subdirs)
  end
with survivors_in (keep_job : pyvalue) (f : forest) : forest :=
  match f with
  | Fnil => Fnil
  | Fcons name d rest =>
      if kept_dir keep_job name
      then Fcons name (survivors keep_job d) (survivors_in keep_job rest)
      else survivors_in keep_job rest
  end.

(** No file and no directory in or below the directory has a kept name. *)
Fixpoint nothing_kept (keep_job : pyvalue) (d : dir) : bool :=
  match d with
  | Dir files subdirs =>
      negb (existsb (kept_file keep_job) files)
      && nothing_kept_in keep_job subdirs
  end
with nothing_kept_in (keep_job : pyvalue) (f : forest) : bool :=
  match f with
  | Fnil => true
  | Fcons name d rest =>
      negb (kept_dir keep_job name) && nothing_kept keep_job d
      && nothing_kept_in keep_job rest
  end.

(** Some subdirectory listed in the forest is blocked. *)
Fixpoint any_blocked (keep_job : pyvalue) (f : forest) : bool :=
  match f with
  | Fnil => false
  | Fcons _ d rest => blocked keep_job d || any_blocked keep_job rest
  end.

(** Some subdirectory listed in the forest is not a kept one and holds a
    kept file or a kept directory. *)
Fixpoint any_stuck (keep_job : pyvalue) (f : forest) : bool :=
  match f with
  | Fnil => false
  | Fcons name d rest =>
      (negb (kept_dir keep_job name) && holds_kept keep_job d)
      || any_stuck keep_job rest
  end.

(** The forest once each of its directories was walked without error. *)
Fixpoint walked (keep_job : pyvalue) (f : forest) : forest :=
  match f with
  | Fnil => Fnil
  | Fcons name d rest =>
      Fcons name (survivors keep_job d) (walked keep_job rest)
  end.

(** The file [name] exists in the directory reached along [path]. *)
Fixpoint has_file (d : dir) (path : list string) (name : string) : Prop :=
  match d with
  | Dir files subdirs =>
      match path with
      | [] => In name files
      | step :: path' => has_file_in subdirs step path' name
      end
  end
with has_file_in (f : forest) (step : string) (path : list string)
    (name : string) : Prop :=
  match f with
  | Fnil => False
  | Fcons n d rest =>
      (n = step /\ has_file d path name) \/ has_file_in rest step path name
  end.

End CleanDir.


(** * Properties of the update queue *)

Section UpdateQueueFacts.

Variables Payload Blob : Type.
Variable pickle_dumps : Payload -> Blob.
Variable pickle_loads : Blob -> Payload.
Variable Manager : Type.
Variable manager_post :
  Manager -> string -> Payload -> outcome Response * Manager.

Local Notation Row := (Row Blob).
Local Notation Queue := (TaskUpdateQueue Blob Manager).
Local Notation World := (World Payload Blob Manager).
Local Notation event := (event Payload).
Local Notation item := (item pickle_loads).
Local Notation request := (request pickle_loads).
Local Notation handled_events := (handled_events pickle_loads).
Local Notation flush_loop := (flush_loop manager_post).
Local Notation flush := (flush pickle_loads manager_post).
Local Notation flush_and_catch := (flush_and_catch pickle_loads manager_post).
Local Notation flush_and_report := (flush_and_report pickle_loads manager_post).
Local Notation work_loop := (work_loop pickle_loads manager_post).
Local Notation queue := (queue (Manager := Manager) pickle_dumps).
Local Notation queue_all := (queue_all (Manager := Manager) pickle_dumps).
Local Notation work := (work pickle_loads manager_post).

(** *** The SQL statements on a well-formed table *)

Lemma table_ok_nil : table_ok (@nil Row).
Proof. constructor. Qed.

Lemma table_ok_tail (r : Row) (t : list Row) :
  table_ok (r :: t) -> table_ok t.
Proof. unfold table_ok; simpl; intros H; now inversion H. Qed.

Lemma table_ok_head_lt (r : Row) (t : list Row) :
  table_ok (r :: t) -> Forall (fun r' => rowid r < rowid r') t.
Proof.
  unfold table_ok; simpl; intros H; inversion H as [|? ? _ Hall]; subst.
  rewrite Forall_map in Hall; exact Hall.
Qed.

Lemma insert_by_rowid_head (r : Row) (t : list Row) :
  Forall (fun r' => rowid r < rowid r') t -> insert_by_rowid r t = r :: t.
Proof.
  destruct t as [|r' t']; simpl; [reflexivity|].
  intros H; inversion H; subst.
  destruct (Z.leb_spec (rowid r) (rowid r')); [reflexivity | lia].
Qed.

Lemma sql_select_ordered_ok (t : list Row) :
  table_ok t -> sql_select_ordered t = t.
Proof.
  induction t as [|r t IH]; simpl; intros Hok; [reflexivity|].
  rewrite (IH (table_ok_tail Hok)).
  apply insert_by_rowid_head, (table_ok_head_lt Hok).
Qed.

Lemma sql_select_ordered_nil (t : list Row) :
  sql_select_ordered t = [] <-> t = [].
Proof.
  split; [|intros ->; reflexivity].
  destruct t as [|r t]; [reflexivity|]; simpl.
  destruct (sql_select_ordered t) as [|r' t']; simpl; [discriminate|].
  destruct (rowid r <=? rowid r'); discriminate.
Qed.

Lemma sql_delete_above (i : Z) (t : list Row) :
  Forall (fun r' => i < rowid r') t -> sql_delete i t = t.
Proof.
  induction 1 as [|r' t Hlt _ IH]; simpl; [reflexivity|].
  destruct (Z.eqb_spec (rowid r') i); simpl; [lia | now rewrite IH].
Qed.

Lemma sql_delete_head (r : Row) (t : list Row) :
  table_ok (r :: t) -> sql_delete (rowid r) (r :: t) = t.
Proof.
  intros Hok; simpl. rewrite Z.eqb_refl; simpl.
  apply sql_delete_above, (table_ok_head_lt Hok).
Qed.

Lemma next_rowid_above (t : list Row) :
  Forall (fun r => rowid r < next_rowid t) t.
Proof.
  unfold next_rowid.
  induction t as [|r t IH]; simpl; constructor; [lia|].
  eapply Forall_impl; [|exact IH]. simpl; intros; lia.
Qed.

Lemma sql_insert_ok (u : string) (b : Blob) (t : list Row) :
  table_ok t -> table_ok (sql_insert u b t).
Proof.
  unfold sql_insert. generalize (next_rowid_above t).
  generalize (next_rowid t) as n. unfold table_ok.
  induction t as [|r t IH]; simpl; intros n Hn Hok.
  - repeat constructor.
  - inversion Hn; subst. inversion Hok as [|? ? Hs Hall]; subst.
    constructor; [now apply IH|].
    rewrite map_app, Forall_app; split; [assumption|].
    simpl; repeat constructor; assumption.
Qed.

(** *** One iteration of the loop of [flush] *)

Lemma flush_loop_step (i : Z) (u : string) (p : Payload)
    (rest : list (Z * string * Payload)) (qe : bool) (h : Z) (w : World) :
  _db (self w) = Some Connection ->
  flush_loop ((i, u, p) :: rest) qe h w =
  let '(r, m') := manager_post (manager (self w)) u p in
  let w1 := mkWorld (set_manager m' (self w)) (trace w ++ [EvPost u p r]) in
  match r with
  | Raised e => (Raised e, w1)
  | Returned resp =>
      if accepted resp then
        let w2 :=
          mkWorld
            (set_table (sql_delete i (fworker_queue (self w)))
               (set_manager m' (self w)))
            (trace w1 ++ [EvUnqueue i]) in
        if h + 1 >? 1000 then (Returned (false, h + 1), w2)
        else flush_loop rest false (h + 1) w2
      else (Raised (HTTPError (status_code resp)), w1)
  end.
Proof.
  intros Hdb. destruct w as [q tr]; simpl in Hdb.
  simpl.
  unfold bind at 1. unfold queue_size, ensure_db, bind, get_self, ret; simpl.
  rewrite Hdb; simpl.
  unfold post, bind, get_self; simpl.
  destruct (manager_post (manager q) u p) as [[resp|e] m']; simpl;
    [|reflexivity].
  unfold accepted, raise_for_status.
  destruct (status_code resp =? 409); simpl.
  - unfold _unqueue, bind, get_self; simpl. rewrite Hdb; simpl.
    destruct (h + 1 >? 1000); reflexivity.
  - destruct ((400 <=? status_code resp) && (status_code resp <? 600)); simpl;
      [reflexivity|].
    unfold _unqueue, bind, get_self; simpl. rewrite Hdb; simpl.
    destruct (h + 1 >? 1000); reflexivity.
Qed.


(** *** What the loop of [flush] does to a well-formed table

    The loop handles the first [k] rows, each POSTed, answered with an
    accepted response and unqueued, and then either stops (end of the rows
    or the break) or raises at row [k], whose POST is the last event. *)

Lemma flush_loop_run (rows : list Row) :
  forall (qe : bool) (h : Z) (w : World) res w',
  table_ok rows ->
  fworker_queue (self w) = rows ->
  _db (self w) = Some Connection ->
  flush_loop (map item rows) qe h w = (res, w') ->
  exists (k : nat) (rs : list Response) (tail : list event),
    List.length rs = k /\ (k <= List.length rows)%nat /\
    forallb accepted rs = true /\
    trace w' = trace w ++ handled_events (firstn k rows) rs ++ tail /\
    fworker_queue (self w') = skipn k rows /\
    _stuff_queued (self w') = _stuff_queued (self w) /\
    _db (self w') = Some Connection /\
    same_settings (self w) (self w') /\
    (h <= 1000 -> h + Z.of_nat k <= 1001) /\
    match res with
    | Returned (qe', h') =>
        tail = [] /\ h' = h + Z.of_nat k /\
        qe' = match k with O => qe | S _ => false end /\
        (k = List.length rows \/ h' > 1000)
    | Raised e =>
        exists row r,
          nth_error rows k = Some row /\
          tail = [EvPost (url row) (pickle_loads (payload row)) r] /\
          failed_with r e
    end.
Proof.
  induction rows as [|row rest IH]; intros qe h w res w' Hok Htab Hdb.
  - simpl. unfold ret. intros [= <- <-].
    exists 0%nat, [], []. simpl. rewrite app_nil_r.
    repeat split; try easy; try lia.
  - rewrite map_cons.
    change (item row) with (rowid row, url row, pickle_loads (payload row)).
    rewrite flush_loop_step by exact Hdb.
    destruct (manager_post _ _ _) as [[resp|e] m'].
    + destruct (accepted resp) eqn:Hacc.
      * destruct (h + 1 >? 1000) eqn:Hcap.
        -- intros [= <- <-].
           exists 1%nat, [resp], []. simpl. rewrite Hacc, Htab.
           rewrite (sql_delete_head Hok), <- app_assoc. simpl.
           apply Z.gtb_lt in Hcap.
           repeat split; try easy; try lia.
        -- intros Hrun.
           apply IH in Hrun;
             [ | exact (table_ok_tail Hok)
               | simpl; rewrite Htab; exact (sql_delete_head Hok)
               | exact Hdb ].
           destruct Hrun as (k & rs & tail & Hlen & Hle & Hall & Htr & Ht
                             & Hev & Hdb' & Hset & Hbound & Hres).
           exists (S k), (resp :: rs), tail. simpl.
           rewrite Hacc, Hall, Htr, Ht, Hev, Hdb'. simpl.
           rewrite <- !app_assoc. simpl.
           assert (Hh : h + 1 <= 1000)
             by (destruct (Z.gtb_spec (h + 1) 1000); [discriminate | lia]).
           destruct Hset as [Hb Hr]; simpl in Hb, Hr.
           repeat split; try easy; try lia.
           destruct res as [[qe' h']|e].
           ++ destruct Hres as (-> & -> & Hqe & Hstop).
              split; [reflexivity|]. split; [lia|].
              split; [destruct k; exact Hqe|].
              destruct Hstop as [->|Hstop]; [now left | right; lia].
           ++ exact Hres.
      * intros [= <- <-].
        exists 0%nat, [], [EvPost (url row) (pickle_loads (payload row))
                            (Returned resp)].
        simpl. rewrite Htab.
        repeat split; try easy; try lia.
        exists row, (Returned resp). repeat split.
        right. exists resp. repeat split. exact Hacc.
    + intros [= <- <-].
      exists 0%nat, [], [EvPost (url row) (pickle_loads (payload row))
                          (Raised e)].
      simpl. rewrite Htab.
      repeat split; try easy; try lia.
      exists row, (Raised e). repeat split. now left.
Qed.


(** *** [flush] in terms of its loop *)

Lemma ensure_db_run (w : World) : ensure_db w = (Returned tt, connected w).
Proof.
  destruct w as [[m b s e [[]|] t] tr]; reflexivity.
Qed.

Lemma queue_size_run (w : World) :
  queue_size w = (Returned (sql_count (fworker_queue (self w))), connected w).
Proof.
  unfold queue_size, bind. rewrite ensure_db_run. reflexivity.
Qed.

Lemma _queue_run (w : World) :
  _queue pickle_loads w =
  (Returned (map item (sql_select_ordered (fworker_queue (self w)))),
   connected w).
Proof.
  unfold _queue, bind. rewrite ensure_db_run. reflexivity.
Qed.

Lemma connected_idem (w : World) : connected (connected w) = connected w.
Proof. reflexivity. Qed.

Lemma flush_unfold (w : World) :
  flush w =
  match flush_loop (map item (sql_select_ordered (fworker_queue (self w))))
          true 0 (connected w) with
  | (Returned (qe, _), w1) =>
      (Returned qe,
       connected (if qe : bool
                  then mkWorld (set_stuff_queued false (self w1)) (trace w1)
                  else w1))
  | (Raised e, w1) => (Raised e, w1)
  end.
Proof.
  unfold flush.
  unfold bind at 1. rewrite queue_size_run.
  unfold bind at 1. rewrite _queue_run. simpl fworker_queue.
  unfold bind at 1.
  destruct (flush_loop _ true 0 (connected (connected w)))
    as [[[qe h]|e] w1] eqn:Hloop;
    rewrite connected_idem in Hloop; rewrite Hloop; [|reflexivity].
  destruct qe; unfold bind, modify_self, ret; rewrite queue_size_run;
    reflexivity.
Qed.

(** The loop never touches the event, and reports an empty queue only when
    it was given no row at all. *)
Lemma flush_loop_flag (items : list (Z * string * Payload)) :
  forall (qe : bool) (h : Z) (w : World) res w',
  _db (self w) = Some Connection ->
  flush_loop items qe h w = (res, w') ->
  _stuff_queued (self w') = _stuff_queued (self w) /\
  _db (self w') = Some Connection /\
  forall qe' h', res = Returned (qe', h') ->
                 qe' = match items with [] => qe | _ :: _ => false end.
Proof.
  induction items as [|[[i u] p] rest IH]; intros qe h w res w' Hdb.
  - simpl; unfold ret; intros [= <- <-].
    repeat split; try assumption. now intros ? ? [= <- _].
  - rewrite flush_loop_step by exact Hdb.
    destruct (manager_post _ _ _) as [[resp|e] m'];
      [destruct (accepted resp); [destruct (h + 1 >? 1000)|]|].
    + intros [= <- <-]. repeat split; try assumption.
      now intros ? ? [= <- _].
    + intros Hrun. apply IH in Hrun; [|exact Hdb].
      destruct Hrun as (Hev & Hdb' & Hqe). repeat split; try assumption.
      intros qe' h' Hres. specialize (Hqe _ _ Hres).
      destruct rest; exact Hqe.
    + intros [= <- <-]. repeat split; try assumption. discriminate.
    + intros [= <- <-]. repeat split; try assumption. discriminate.
Qed.


(** *** One drain pass *)

(** What [flush] answers and what it does to the event. *)
Lemma flush_flag (w : World) :
  match flush w with
  | (Returned b, w') =>
      b = match fworker_queue (self w) with [] => true | _ :: _ => false end /\
      _stuff_queued (self w') = (if b then false else _stuff_queued (self w))
  | (Raised _, w') =>
      fworker_queue (self w) <> [] /\
      _stuff_queued (self w') = _stuff_queued (self w)
  end.
Proof.
  rewrite flush_unfold.
  destruct (flush_loop _ true 0 (connected w)) as [res w1] eqn:Hloop.
  pose proof Hloop as Hloop0.
  apply flush_loop_flag in Hloop; [|reflexivity].
  destruct Hloop as (Hev & _ & Hqe). simpl in Hev.
  destruct res as [[qe h]|e].
  - specialize (Hqe _ _ eq_refl).
    destruct (fworker_queue (self w)) as [|r t] eqn:Ht.
    + simpl in Hqe; subst qe. split; reflexivity.
    + assert (Hne : sql_select_ordered (r :: t) <> [])
        by (rewrite sql_select_ordered_nil; discriminate).
      destruct (sql_select_ordered (r :: t)); [contradiction|].
      simpl in Hqe; subst qe. split; [reflexivity | exact Hev].
  - split; [|exact Hev].
    intros Ht. rewrite Ht in Hloop0. discriminate.
Qed.

(** The rows a pass handles, the trace it leaves and the rows it leaves. *)
Lemma flush_run (w : World) res w' :
  table_ok (fworker_queue (self w)) ->
  flush w = (res, w') ->
  exists (k : nat) (rs : list Response) (tail : list event),
    List.length rs = k /\
    (k <= List.length (fworker_queue (self w)))%nat /\
    (k <= 1001)%nat /\
    forallb accepted rs = true /\
    trace w' =
      trace w ++ handled_events (firstn k (fworker_queue (self w))) rs ++ tail /\
    fworker_queue (self w') = skipn k (fworker_queue (self w)) /\
    same_settings (self w) (self w') /\
    match res with
    | Returned _ =>
        tail = [] /\
        (k = List.length (fworker_queue (self w)) \/ k = 1001%nat)
    | Raised e =>
        exists row r,
          nth_error (fworker_queue (self w)) k = Some row /\
          tail = [EvPost (url row) (pickle_loads (payload row)) r] /\
          failed_with r e
    end.
Proof.
  intros Hok. rewrite flush_unfold, (sql_select_ordered_ok Hok).
  destruct (flush_loop _ true 0 (connected w)) as [lres w1] eqn:Hloop.
  apply flush_loop_run in Hloop; [|exact Hok|reflexivity|reflexivity].
  destruct Hloop as (k & rs & tail & Hlen & Hle & Hall & Htr & Ht & _ & _
                     & Hset & Hbound & Hres).
  simpl in Htr, Hset. specialize (Hbound ltac:(lia)).
  destruct lres as [[qe h]|e]; intros [= <- <-].
  - exists k, rs, tail.
    destruct Hres as (Htail & Hh & _ & Hstop).
    assert (Hk : k = List.length (fworker_queue (self w)) \/ k = 1001%nat)
      by (destruct Hstop; [now left | right; lia]).
    destruct qe; simpl; repeat split; try assumption; try lia;
      apply Hset.
  - exists k, rs, tail. repeat split; try assumption; try lia; apply Hset.
Qed.


(** *** Enqueueing *)

Lemma queue_run (u : string) (p : Payload) (w : World) :
  queue u p w =
  (Returned tt,
   mkWorld
     (set_stuff_queued true
        (set_table (sql_insert u (pickle_dumps p) (fworker_queue (self w)))
           (set_db (Some Connection) (self w))))
     (trace w)).
Proof.
  unfold queue, bind. rewrite ensure_db_run. reflexivity.
Qed.

Lemma firstn_app_length_id (A : Type) (l l' : list A) :
  firstn (List.length l) (l ++ l') = firstn (List.length l) l.
Proof.
  rewrite firstn_app, Nat.sub_diag. simpl. now rewrite app_nil_r.
Qed.

Section Roundtrip.

(** Unpickling gives back the object that was pickled. *)
Hypothesis pickle_roundtrip : forall p, pickle_loads (pickle_dumps p) = p.

Lemma queue_all_run (us : list (string * Payload)) :
  forall w : World,
  table_ok (fworker_queue (self w)) ->
  exists w1,
    queue_all us w = (Returned tt, w1) /\
    table_ok (fworker_queue (self w1)) /\
    map request (fworker_queue (self w1)) =
      map request (fworker_queue (self w)) ++ us /\
    firstn (List.length (fworker_queue (self w))) (fworker_queue (self w1)) =
      fworker_queue (self w) /\
    trace w1 = trace w /\
    same_settings (self w) (self w1).
Proof.
  induction us as [|[u p] us IH]; intros w Hok.
  - exists w. simpl. rewrite app_nil_r, firstn_all. now repeat split.
  - simpl. unfold bind at 1. rewrite queue_run.
    destruct (IH (mkWorld
                    (set_stuff_queued true
                       (set_table
                          (sql_insert u (pickle_dumps p)
                             (fworker_queue (self w)))
                          (set_db (Some Connection) (self w))))
                    (trace w)))
      as (w1 & Hrun & Hok1 & Hreq & Hold & Htr & Hset).
    { simpl. now apply sql_insert_ok. }
    simpl in Hreq, Hold, Htr, Hset.
    exists w1.
    split; [exact Hrun|]. split; [exact Hok1|].
    split; [|split; [|split; [exact Htr|]]].
    + rewrite Hreq. unfold sql_insert. rewrite map_app, <- app_assoc. simpl.
      unfold request. simpl. now rewrite pickle_roundtrip.
    + transitivity
        (firstn (List.length (fworker_queue (self w)))
           (firstn
              (List.length
                 (sql_insert u (pickle_dumps p) (fworker_queue (self w))))
              (fworker_queue (self w1)))).
      * rewrite firstn_firstn. f_equal.
        unfold sql_insert. rewrite length_app. simpl. lia.
      * rewrite Hold. unfold sql_insert.
        rewrite firstn_app_length_id. apply firstn_all.
    + destruct Hset as [Hb Hr]. split; [exact Hb | exact Hr].
Qed.

End Roundtrip.


(** *** Well-formedness is kept by every operation *)

Lemma table_ok_skipn (k : nat) (t : list Row) :
  table_ok t -> table_ok (skipn k t).
Proof.
  revert t. induction k as [|k IH]; intros [|r t] Hok; simpl;
    try assumption.
  apply IH, (table_ok_tail Hok).
Qed.

Lemma queue_table_ok (u : string) (p : Payload) (w : World) :
  table_ok (fworker_queue (self w)) ->
  table_ok (fworker_queue (self (snd (queue u p w)))).
Proof.
  intros Hok. rewrite queue_run. simpl. now apply sql_insert_ok.
Qed.

Lemma flush_table_ok (w : World) :
  table_ok (fworker_queue (self w)) ->
  table_ok (fworker_queue (self (snd (flush w)))).
Proof.
  intros Hok. destruct (flush w) as [res w'] eqn:Hflush.
  destruct (flush_run _ Hok Hflush)
    as (k & rs & tail & _ & _ & _ & _ & _ & Ht & _).
  simpl. rewrite Ht. now apply table_ok_skipn.
Qed.


(** *** Reading the trace of a pass *)

Lemma posts_app (tr tr' : list event) :
  posts (tr ++ tr') = posts tr ++ posts tr'.
Proof. apply flat_map_app. Qed.

Lemma unqueued_app (tr tr' : list event) :
  unqueued (tr ++ tr') = unqueued tr ++ unqueued tr'.
Proof. apply flat_map_app. Qed.

Lemma posts_handled (rows : list Row) :
  forall rs : list Response,
  List.length rs = List.length rows ->
  posts (handled_events rows rs) = map request rows.
Proof.
  induction rows as [|row rows IH]; intros [|r rs] Hlen;
    try discriminate; [reflexivity|].
  simpl in *. f_equal. apply IH. lia.
Qed.

Lemma unqueued_handled (rows : list Row) :
  forall rs : list Response,
  List.length rs = List.length rows ->
  unqueued (handled_events rows rs) = map (@rowid Blob) rows.
Proof.
  induction rows as [|row rows IH]; intros [|r rs] Hlen;
    try discriminate; [reflexivity|].
  simpl in *. f_equal. apply IH. lia.
Qed.

Lemma handled_events_length (rows : list Row) :
  forall rs : list Response,
  List.length rs = List.length rows ->
  List.length (handled_events rows rs) = (2 * List.length rows)%nat.
Proof.
  induction rows as [|row rows IH]; intros [|r rs] Hlen;
    try discriminate; [reflexivity|].
  simpl in Hlen. specialize (IH rs ltac:(lia)).
  unfold handled_events in *. simpl. rewrite IH. lia.
Qed.

Lemma nth_handled_post (rows : list Row) :
  forall (rs : list Response) (j : nat),
  List.length rs = List.length rows ->
  nth_error (handled_events rows rs) (2 * j) =
  match nth_error rows j, nth_error rs j with
  | Some row, Some r =>
      Some (EvPost (url row) (pickle_loads (payload row)) (Returned r))
  | _, _ => None
  end.
Proof.
  induction rows as [|row rows IH]; intros [|r rs] j Hlen;
    try discriminate.
  - destruct j; reflexivity.
  - destruct j as [|j]; [reflexivity|].
    replace (2 * S j)%nat with (S (S (2 * j))) by lia.
    simpl in *. apply IH. lia.
Qed.

Lemma nth_handled_unqueue (rows : list Row) :
  forall (rs : list Response) (j : nat),
  List.length rs = List.length rows ->
  nth_error (handled_events rows rs) (2 * j + 1) =
  match nth_error rows j with
  | Some row => Some (EvUnqueue (rowid row))
  | None => None
  end.
Proof.
  induction rows as [|row rows IH]; intros [|r rs] j Hlen;
    try discriminate.
  - destruct j; reflexivity.
  - destruct j as [|j]; [reflexivity|].
    replace (2 * S j + 1)%nat with (S (S (2 * j + 1))) by lia.
    simpl in *. apply IH. lia.
Qed.

Lemma firstn_snoc (A : Type) (l : list A) :
  forall (k : nat) (x : A),
  nth_error l k = Some x -> firstn k l ++ [x] = firstn (S k) l.
Proof.
  induction l as [|a l IH]; intros [|k] x H; simpl in *;
    try discriminate.
  - now injection H as ->.
  - f_equal. now apply IH.
Qed.

Lemma table_ok_NoDup (t : list Row) : table_ok t -> NoDup (map (@rowid Blob) t).
Proof.
  unfold table_ok. induction 1 as [|i l Hs IH Hall]; constructor;
    [|exact IH].
  intros Hin. rewrite Forall_forall in Hall. specialize (Hall _ Hin). lia.
Qed.

(** A row among the first [k] is not among the others. *)
Lemma table_ok_split (t : list Row) (k : nat) (row : Row) :
  table_ok t -> In row (firstn k t) -> ~ In row (skipn k t).
Proof.
  intros Hok Hin Hin'. apply table_ok_NoDup in Hok.
  rewrite <- (firstn_skipn k t), map_app in Hok.
  revert Hok Hin Hin'. generalize (firstn k t) (skipn k t).
  intros a b Hnd Ha Hb.
  induction a as [|x a IH]; [contradiction|].
  simpl in Hnd. inversion Hnd as [|? ? Hnotin Hnd']; subst.
  destruct Ha as [->|Ha]; [|now apply IH].
  apply Hnotin, in_or_app. right. now apply in_map.
Qed.


Lemma nth_error_after (A : Type) (l x : list A) (i : nat) :
  nth_error (l ++ x) (List.length l + i) = nth_error x i.
Proof.
  rewrite nth_error_app2 by lia. f_equal. lia.
Qed.

(** The trace of a pass, event by event: past the events already there,
    the events 2i and 2i+1 are the POST and the unqueue of row i, for the
    [k] rows handled, and a pass that raises ends on the POST of row [k]. *)
Lemma flush_positions (w : World) res w' :
  table_ok (fworker_queue (self w)) ->
  flush w = (res, w') ->
  exists k : nat,
    (k <= List.length (fworker_queue (self w)))%nat /\ (k <= 1001)%nat /\
    fworker_queue (self w') = skipn k (fworker_queue (self w)) /\
    backoff_time (self w') = backoff_time (self w) /\
    (forall i, (i < k)%nat ->
       exists row resp,
         nth_error (fworker_queue (self w)) i = Some row /\
         accepted resp = true /\
         nth_error (trace w') (List.length (trace w) + 2 * i) =
           Some (EvPost (url row) (pickle_loads (payload row))
                   (Returned resp)) /\
         nth_error (trace w') (List.length (trace w) + (2 * i + 1)) =
           Some (EvUnqueue (rowid row))) /\
    match res with
    | Returned _ =>
        List.length (trace w') = (List.length (trace w) + 2 * k)%nat /\
        (k = List.length (fworker_queue (self w)) \/ k = 1001%nat)
    | Raised e =>
        List.length (trace w') = (List.length (trace w) + 2 * k + 1)%nat /\
        exists row r,
          nth_error (fworker_queue (self w)) k = Some row /\
          nth_error (trace w') (List.length (trace w) + 2 * k) =
            Some (EvPost (url row) (pickle_loads (payload row)) r) /\
          failed_with r e
    end.
Proof.
  intros Hok Hflush.
  destruct (flush_run _ Hok Hflush)
    as (k & rs & tail & Hlen & Hle & Hcap & Hall & Htr & Ht & Hset & Hres).
  set (t := fworker_queue (self w)) in *.
  assert (Hlen' : List.length rs = List.length (firstn k t))
    by (rewrite firstn_length_le; [exact Hlen | exact Hle]).
  assert (Hhl : List.length (handled_events (firstn k t) rs) = (2 * k)%nat)
    by (rewrite handled_events_length by exact Hlen';
        rewrite firstn_length_le by exact Hle; reflexivity).
  exists k. split; [exact Hle|]. split; [exact Hcap|]. split; [exact Ht|].
  split; [apply Hset|]. split.
  - intros i Hi.
    assert (Hrow : exists row, nth_error (firstn k t) i = Some row).
    { destruct (nth_error (firstn k t) i) eqn:E; [eauto|].
      apply nth_error_None in E. rewrite firstn_length_le in E; lia. }
    assert (Hresp : exists resp, nth_error rs i = Some resp).
    { destruct (nth_error rs i) eqn:E; [eauto|].
      apply nth_error_None in E. lia. }
    destruct Hrow as [row Hrow], Hresp as [resp Hresp].
    exists row, resp. split; [|split; [|split]].
    + rewrite nth_error_firstn in Hrow.
      destruct (Nat.ltb_spec i k); [exact Hrow | lia].
    + rewrite forallb_forall in Hall. apply Hall.
      eapply nth_error_In; exact Hresp.
    + rewrite Htr, nth_error_after, nth_error_app1 by lia.
      rewrite nth_handled_post by exact Hlen'. now rewrite Hrow, Hresp.
    + rewrite Htr, nth_error_after, nth_error_app1 by lia.
      rewrite nth_handled_unqueue by exact Hlen'. now rewrite Hrow.
  - destruct res as [b|e].
    + destruct Hres as [-> Hstop]. split; [|exact Hstop].
      rewrite Htr, app_nil_r, length_app. lia.
    + destruct Hres as (row & r & Hnth & -> & Hfail). split.
      * rewrite Htr, !length_app. simpl. lia.
      * exists row, r. split; [exact Hnth|]. split; [|exact Hfail].
        rewrite Htr, nth_error_after, nth_error_app2 by lia.
        rewrite Hhl, Nat.sub_diag. reflexivity.
Qed.


(** *** A cooperating Manager *)

Section Cooperating.

(** The Manager answers every request, with a response the pass accepts. *)
Hypothesis cooperating :
  forall m u p, exists resp,
    fst (manager_post m u p) = Returned resp /\ accepted resp = true.

Lemma flush_loop_cooperating (items : list (Z * string * Payload)) :
  forall (qe : bool) (h : Z) (w : World),
  _db (self w) = Some Connection ->
  exists v, fst (flush_loop items qe h w) = Returned v.
Proof.
  induction items as [|[[i u] p] rest IH]; intros qe h w Hdb.
  - now exists (qe, h).
  - rewrite flush_loop_step by exact Hdb.
    destruct (cooperating (manager (self w)) u p) as (resp & Hr & Hacc).
    destruct (manager_post _ _ _) as [r m']. simpl in Hr. subst r.
    rewrite Hacc. destruct (h + 1 >? 1000); [now eexists|].
    apply IH. exact Hdb.
Qed.

(** Against such a Manager a pass never raises; it handles every queued
    row, or 1001 of them, and what it leaves are the rows after these. *)
Lemma flush_cooperating (w : World) :
  table_ok (fworker_queue (self w)) ->
  exists b,
    fst (flush w) = Returned b /\
    fworker_queue (self (snd (flush w))) =
      skipn 1001 (fworker_queue (self w)) /\
    posts (trace (snd (flush w))) =
      posts (trace w) ++ map request (firstn 1001 (fworker_queue (self w))).
Proof.
  intros Hok. destruct (flush w) as [res w'] eqn:Hflush.
  assert (Hret : exists b, res = Returned b).
  { rewrite flush_unfold in Hflush.
    destruct (flush_loop_cooperating
                (map item (sql_select_ordered (fworker_queue (self w))))
                true 0 (connected w) eq_refl) as [[qe h] Hv].
    destruct (flush_loop _ true 0 (connected w)) as [lres w1].
    simpl in Hv. subst lres. injection Hflush as <- _. now eexists. }
  destruct Hret as [b ->]. exists b. split; [reflexivity|].
  destruct (flush_run _ Hok Hflush)
    as (k & rs & tail & Hlen & Hle & Hcap & _ & Htr & Ht & _ & -> & Hstop).
  cbn [fst snd]. rewrite Ht, Htr, app_nil_r, posts_app, posts_handled
    by (rewrite firstn_length_le; [exact Hlen | exact Hle]).
  destruct Hstop as [Hk| ->]; [|split; reflexivity].
  rewrite Hk in Hcap |- *. rewrite skipn_all, firstn_all.
  rewrite skipn_all2, firstn_all2 by lia. split; reflexivity.
Qed.

End Cooperating.


(** * The claims about the update queue *)

(** A loop that raises ends on the POST that failed. *)
Lemma flush_loop_raised (items : list (Z * string * Payload)) :
  forall (qe : bool) (h : Z) (w : World) e w',
  _db (self w) = Some Connection ->
  flush_loop items qe h w = (Raised e, w') ->
  exists tr u p r,
    trace w' = trace w ++ tr ++ [EvPost u p r] /\ failed_with r e.
Proof.
  induction items as [|[[i u] p] rest IH]; intros qe h w e w' Hdb.
  - intros Hrun. compute in Hrun. discriminate.
  - rewrite flush_loop_step by exact Hdb.
    destruct (manager_post _ _ _) as [[resp|e0] m'];
      [destruct (accepted resp) eqn:Hacc; [destruct (h + 1 >? 1000)|]|].
    + discriminate.
    + intros Hrun. apply IH in Hrun; [|exact Hdb].
      destruct Hrun as (tr & u' & p' & r & Htr & Hfail).
      cbn [trace] in Htr.
      exists ([EvPost u p (Returned resp); EvUnqueue i] ++ tr), u', p', r.
      split; [|exact Hfail]. rewrite Htr, <- !app_assoc. reflexivity.
    + intros [= <- <-]. exists [], u, p, (Returned resp).
      split; [reflexivity|]. right. exists resp. now repeat split.
    + intros [= <- <-]. exists [], u, p, (Raised e0).
      split; [reflexivity|]. now left.
Qed.

(** C5: [flush] returns True if and only if the queue holds no row when the
    pass starts, and a pass that returns with a row queued on entry
    returns False.  It fails to return only when a POST of the pass
    failed, that POST being its last event; so against a Manager that
    accepts every request it does return, and it returns False for a
    queue that was not empty even though the pass delivers every row and
    leaves the store empty. *)
Theorem C5_flush_answers_whether_empty_on_entry (w : World) :
  (fst (flush w) = Returned true <-> fworker_queue (self w) = []) /\
  (forall b : bool,
     fst (flush w) = Returned b ->
     b = match fworker_queue (self w) with [] => true | _ :: _ => false end) /\
  (forall e,
     fst (flush w) = Raised e ->
     exists tr u p r,
       trace (snd (flush w)) = trace w ++ tr ++ [EvPost u p r] /\
       failed_with r e) /\
  ((forall m u p, exists resp,
       fst (manager_post m u p) = Returned resp /\ accepted resp = true) ->
   fst (flush w) =
     Returned
       match fworker_queue (self w) with [] => true | _ :: _ => false end /\
   (table_ok (fworker_queue (self w)) ->
    (List.length (fworker_queue (self w)) <= 1001)%nat ->
    fworker_queue (self (snd (flush w))) = [] /\
    posts (trace (snd (flush w))) =
      posts (trace w) ++ map request (fworker_queue (self w)))).
Proof.
  split; [|split; [|split]].
  - generalize (flush_flag w). destruct (flush w) as [[b|e] w']; simpl.
    + intros [Hb _]. split.
      * intros [= ->]. destruct (fworker_queue (self w)); [reflexivity|].
        discriminate.
      * intros Ht. rewrite Ht in Hb. now subst b.
    + intros [Hne _]. split; [discriminate|]. intros Ht; contradiction.
  - generalize (flush_flag w). destruct (flush w) as [[b|e] w']; simpl.
    + intros [Hb _]. now intros b' [= <-].
    + discriminate.
  - intros e. rewrite flush_unfold.
    destruct (flush_loop _ true 0 (connected w)) as [[[qe h]|e'] w1] eqn:Hloop;
      cbn [fst snd]; [discriminate|].
    intros [= ->]. apply flush_loop_raised in Hloop; [|reflexivity].
    exact Hloop.
  - intros Hcoop.
    assert (Hret : exists b, fst (flush w) = Returned b).
    { rewrite flush_unfold.
      destruct (flush_loop_cooperating Hcoop
                  (map item (sql_select_ordered (fworker_queue (self w))))
                  true 0 (connected w) eq_refl) as [[qe h] Hv].
      destruct (flush_loop _ true 0 (connected w)) as [lres w1].
      cbn [fst] in Hv. subst lres. now eexists. }
    destruct Hret as [b Hb]. split.
    + rewrite Hb. f_equal.
      generalize (flush_flag w). destruct (flush w) as [[b'|e] w'];
        cbn [fst] in Hb; [|discriminate].
      injection Hb as ->. now intros [-> _].
    + intros Hok Hlen.
      destruct (flush_cooperating Hcoop w Hok) as (b' & _ & Ht & Hp).
      rewrite Ht, Hp. rewrite skipn_all2, firstn_all2 by lia. now split.
Qed.

(** C6, as the code has it: a drain pass clears the work-available event
    exactly when the queue holds no row as the pass starts; a pass that
    finds a row leaves the event as it was, whether it drains the queue,
    stops at the cap or raises. *)
Theorem C6_event_cleared_iff_empty_on_entry (w : World) :
  _stuff_queued (self (snd (flush w))) =
  match fworker_queue (self w) with
  | [] => false
  | _ :: _ => _stuff_queued (self w)
  end.
Proof.
  generalize (flush_flag w). destruct (flush w) as [[b|e] w']; simpl.
  - intros [-> Hev]. now destruct (fworker_queue (self w)).
  - intros [Hne Hev]. now destruct (fworker_queue (self w)).
Qed.

(** C10: a pass entered with an empty store POSTs nothing and deletes
    nothing: it returns True, the trace and the table are as before, and
    the world differs only in the cleared event (and the connection that
    [queue_size] opens if none was open). *)
Theorem C10_flush_on_empty_store (w : World) :
  fworker_queue (self w) = [] ->
  flush w =
    (Returned true,
     mkWorld (set_stuff_queued false (set_db (Some Connection) (self w)))
       (trace w)) /\
  trace (snd (flush w)) = trace w /\
  fworker_queue (self (snd (flush w))) = fworker_queue (self w) /\
  manager (self (snd (flush w))) = manager (self w) /\
  _stuff_queued (self (snd (flush w))) = false.
Proof.
  intros Ht.
  assert (H : flush w =
              (Returned true,
               mkWorld
                 (set_stuff_queued false (set_db (Some Connection) (self w)))
                 (trace w)))
    by (rewrite flush_unfold, Ht; reflexivity).
  rewrite H. simpl. now repeat split.
Qed.


Lemma handled_events_in (row : Row) (rows : list Row) :
  forall rs : list Response,
  List.length rs = List.length rows ->
  In row rows ->
  exists resp,
    In resp rs /\
    In (EvPost (url row) (pickle_loads (payload row)) (Returned resp))
       (handled_events rows rs).
Proof.
  induction rows as [|row' rows IH]; intros [|r rs] Hlen Hin;
    try discriminate; try contradiction.
  destruct Hin as [->|Hin].
  - exists r. split; left; reflexivity.
  - destruct (IH rs) as (resp & Hr & He); [simpl in Hlen; lia|exact Hin|].
    exists resp. split; [now right|]. right. right. exact He.
Qed.

(** C1, as the code has it: every payload handed to [queue] is accepted and
    becomes a row.  A drain pass removes a row only right after the POST
    carrying its payload came back with an accepted response, that is, 409
    or a status outside 400..599; if the POST raises or comes back with
    another 4xx or 5xx status, that row and all later rows stay in the
    store.  So every accepted update was POSTed with an accepted response
    or is still queued. *)
Theorem C1_delivered_or_still_queued
    (us : list (string * Payload)) (w0 : World)
    (res : outcome bool) (w' : World) :
  (forall p, pickle_loads (pickle_dumps p) = p) ->
  table_ok (fworker_queue (self w0)) ->
  flush (snd (queue_all us w0)) = (res, w') ->
  let t := fworker_queue (self (snd (queue_all us w0))) in
  fst (queue_all us w0) = Returned tt /\
  map request t = map request (fworker_queue (self w0)) ++ us /\
  (exists (k : nat) (rs : list Response) (tail : list event),
     List.length rs = k /\
     forallb accepted rs = true /\
     trace w' = trace w0 ++ handled_events (firstn k t) rs ++ tail /\
     fworker_queue (self w') = skipn k t /\
     match res with
     | Returned _ => tail = []
     | Raised e =>
         exists row r,
           nth_error t k = Some row /\
           tail = [EvPost (url row) (pickle_loads (payload row)) r] /\
           failed_with r e
     end) /\
  (forall row,
     In row t ->
     In row (fworker_queue (self w')) \/
     exists resp,
       accepted resp = true /\
       In (EvPost (url row) (pickle_loads (payload row)) (Returned resp))
          (trace w')).
Proof.
  intros Hpickle Hok0 Hflush t.
  destruct (queue_all_run Hpickle us w0 Hok0)
    as (w1 & Hq & Hok1 & Hreq & _ & Htr1 & _).
  subst t. rewrite Hq in *. simpl in *.
  destruct (flush_run _ Hok1 Hflush)
    as (k & rs & tail & Hlen & Hle & _ & Hall & Htr & Ht & _ & Hres).
  rewrite Htr1 in Htr.
  split; [reflexivity|]. split; [exact Hreq|]. split.
  - exists k, rs, tail. repeat split; try assumption.
    destruct res; [apply Hres | exact Hres].
  - intros row Hin.
    rewrite <- (firstn_skipn k (fworker_queue (self w1))) in Hin.
    apply in_app_or in Hin. destruct Hin as [Hin|Hin].
    + right.
      assert (Hlen' : List.length rs =
                      List.length (firstn k (fworker_queue (self w1))))
        by (rewrite firstn_length_le; [exact Hlen | exact Hle]).
      destruct (handled_events_in row _ _ Hlen' Hin) as (resp & Hr & He).
      exists resp. split.
      * rewrite forallb_forall in Hall. now apply Hall.
      * rewrite Htr. apply in_or_app. right.
        apply in_or_app. left. exact He.
    + left. rewrite Ht. exact Hin.
Qed.

(** C2: the rows of the store carry ascending rowids in the order of the
    [queue] calls, and a drain pass POSTs the queued requests in that very
    order, as a prefix of the pending ones: all of them (up to the cap)
    when the pass returns, at least the first when it raises. *)
Theorem C2_posts_in_enqueue_order
    (us : list (string * Payload)) (w0 : World)
    (res : outcome bool) (w' : World) :
  (forall p, pickle_loads (pickle_dumps p) = p) ->
  table_ok (fworker_queue (self w0)) ->
  flush (snd (queue_all us w0)) = (res, w') ->
  let pending := map request (fworker_queue (self w0)) ++ us in
  StronglySorted Z.lt
    (map (@rowid Blob) (fworker_queue (self (snd (queue_all us w0))))) /\
  map request (fworker_queue (self (snd (queue_all us w0)))) = pending /\
  exists n : nat,
    posts (trace w') = posts (trace w0) ++ firstn n pending /\
    (n <= List.length pending)%nat /\
    match res with
    | Returned _ => n = Nat.min (List.length pending) 1001
    | Raised _ => (1 <= n)%nat
    end.
Proof.
  intros Hpickle Hok0 Hflush pending.
  destruct (queue_all_run Hpickle us w0 Hok0)
    as (w1 & Hq & Hok1 & Hreq & _ & Htr1 & _).
  rewrite Hq in *. simpl in *.
  destruct (flush_run _ Hok1 Hflush)
    as (k & rs & tail & Hlen & Hle & Hcap & _ & Htr & _ & _ & Hres).
  rewrite Htr1 in Htr.
  assert (Hpl : List.length pending = List.length (fworker_queue (self w1)))
    by (subst pending; rewrite <- Hreq; apply length_map).
  split; [exact Hok1|]. split; [exact Hreq|].
  rewrite Htr, !posts_app, posts_handled
    by (rewrite firstn_length_le; [exact Hlen | exact Hle]).
  fold pending in Hreq. rewrite <- firstn_map, Hreq.
  destruct res as [b|e].
  - destruct Hres as [-> Hstop]. exists k. simpl. rewrite app_nil_r.
    repeat split; lia.
  - destruct Hres as (row & r & Hnth & -> & _).
    assert (Hnth' : nth_error pending k = Some (request row))
      by (rewrite <- Hreq; now apply map_nth_error).
    exists (S k). rewrite <- (firstn_snoc _ _ Hnth').
    split; [reflexivity|]. split; [|lia].
    assert (nth_error pending k <> None) by (rewrite Hnth'; discriminate).
    apply nth_error_Some in H. lia.
Qed.



Lemma accepted_false (resp : Response) :
  accepted resp = false <->
  400 <= status_code resp < 600 /\ status_code resp <> 409.
Proof.
  unfold accepted.
  destruct (Z.eqb_spec (status_code resp) 409),
           (Z.leb_spec 400 (status_code resp)),
           (Z.ltb_spec (status_code resp) 600); simpl;
    split; try discriminate; try lia; reflexivity.
Qed.




Lemma flush_and_catch_unfold (w : World) :
  flush_and_catch w =
  match flush w with
  | (Returned _, w1) => (Returned tt, w1)
  | (Raised _, w1) =>
      (Returned tt,
       mkWorld (self w1) (trace w1 ++ [EvSleep (backoff_time (self w1))]))
  end.
Proof.
  unfold flush_and_catch, try_except, bind.
  destruct (flush w) as [[b|e] w1]; [reflexivity|].
  destruct e; reflexivity.
Qed.

(** A round of the drain loop entered with the event set is one
    [flush_and_catch], and the loop carries on from where that left. *)
Lemma work_loop_round (n : nat) (w : World) :
  _stuff_queued (self w) = true ->
  work_loop (S n) w = work_loop n (snd (flush_and_catch w)).
Proof.
  intros Hset. simpl.
  unfold bind at 1. unfold wait_for_stuff_queued, bind, get_self, ret.
  rewrite Hset. rewrite flush_and_catch_unfold.
  destruct (flush w) as [[b|e] w1]; reflexivity.
Qed.

(** C4, as the code has it: when the POST of a queued row raises (a
    connection error or any other exception) or comes back with a 4xx or
    5xx status other than 409, the pass stops at that row: the row and all
    later rows stay in the store, nothing is POSTed after it, and
    [flush_and_catch] sleeps [backoff_time] seconds, 5 unless the queue
    was built with another value, before it returns; the drain loop makes
    its next attempt from there, after the sleep. *)
Theorem C4_failed_post_stops_the_pass_and_backs_off
    (w : World) (res : outcome unit) (w' : World)
    (j : nat) (u : string) (p : Payload) (r : outcome Response) :
  table_ok (fworker_queue (self w)) ->
  flush_and_catch w = (res, w') ->
  nth_error (trace w') (List.length (trace w) + 2 * j) =
    Some (EvPost u p r) ->
  ((exists e, r = Raised e) \/
   (exists resp, r = Returned resp /\
                 400 <= status_code resp < 600 /\ status_code resp <> 409)) ->
  res = Returned tt /\
  (exists row,
     nth_error (fworker_queue (self w)) j = Some row /\
     request row = (u, p) /\
     fworker_queue (self w') = skipn j (fworker_queue (self w))) /\
  trace w' =
    firstn (List.length (trace w) + 2 * j + 1) (trace w')
    ++ [EvSleep (backoff_time (self w))] /\
  (forall m t recheck,
     backoff_time (@TaskUpdateQueue_init Blob Manager m t None recheck) = 5%Q) /\
  (_stuff_queued (self w) = true ->
   forall n, work_loop (S n) w = work_loop n w').
Proof.
  intros Hok Hrun Hpost Hbad.
  rewrite flush_and_catch_unfold in Hrun.
  destruct (flush w) as [fres w1] eqn:Hflush.
  destruct (flush_positions _ Hok Hflush)
    as (k & Hle & Hcap & Ht & Hbo & Hhandled & Hres).
  set (t := fworker_queue (self w)) in *.
  set (len := List.length (trace w)) in *.
  assert (Hnot : forall i, (i < k)%nat ->
            nth_error (trace w1) (len + 2 * i) <> Some (EvPost u p r)).
  { intros i Hi Heq.
    destruct (Hhandled i Hi) as (row & resp & _ & Hacc & Hp & _).
    rewrite Heq in Hp. injection Hp as _ _ Hr. subst r.
    destruct Hbad as [[e He]|(resp' & [= <-] & Hrange & Hne)];
      [discriminate|].
    assert (accepted resp = false) by (apply accepted_false; now split).
    congruence. }
  destruct fres as [b|e]; injection Hrun as <- <-.
  - exfalso. destruct Hres as [Hlen _].
    destruct (Nat.lt_ge_cases j k) as [Hjk|Hjk].
    + exact (Hnot j Hjk Hpost).
    + assert (nth_error (trace w1) (len + 2 * j) = None)
        by (apply nth_error_None; lia).
      congruence.
  - destruct Hres as (Hlen & row & r' & Hrow & Hpk & Hfail).
    cbn [trace self] in Hpost |- *.
    assert (Hjk : j = k).
    { destruct (Nat.lt_trichotomy j k) as [Hlt|[->|Hgt]];
        [|reflexivity|].
      - exfalso. apply (Hnot j Hlt).
        rewrite nth_error_app1 in Hpost by lia. exact Hpost.
      - assert (nth_error (trace w1 ++ [EvSleep (backoff_time (self w1))])
                  (len + 2 * j) = None)
          by (apply nth_error_None; rewrite length_app; simpl; lia).
        congruence. }
    subst j. rewrite nth_error_app1 in Hpost by lia.
    rewrite Hpost in Hpk. injection Hpk as Hu0 Hp0 _. subst u p.
    split; [reflexivity|]. split; [|split; [|split]].
    + exists row. now repeat split.
    + rewrite <- Hlen, firstn_app, firstn_all, Nat.sub_diag, Hbo. simpl.
      now rewrite app_nil_r.
    + reflexivity.
    + intros Hset n. rewrite work_loop_round by exact Hset.
      rewrite flush_and_catch_unfold, Hflush. reflexivity.
Qed.


(** * Further properties of the update queue *)

(** *** Rowids *)

Lemma max_rowid_base (t : list Row) (b : Z) :
  0 <= b ->
  fold_right (fun r m => Z.max (rowid r) m) b t =
  Z.max (fold_right (fun r m => Z.max (rowid r) m) 0 t) b.
Proof.
  intros Hb. induction t as [|r t IH]; simpl; [lia|]. rewrite IH. lia.
Qed.

Lemma next_rowid_pos (t : list Row) : 0 < next_rowid t.
Proof.
  unfold next_rowid. induction t as [|r t IH]; simpl; lia.
Qed.

Lemma next_rowid_insert (u : string) (b : Blob) (t : list Row) :
  next_rowid (sql_insert u b t) = next_rowid t + 1.
Proof.
  pose proof (next_rowid_pos t) as Hpos. revert Hpos.
  unfold sql_insert, next_rowid. rewrite fold_right_app. simpl.
  intros Hpos. rewrite max_rowid_base by lia. lia.
Qed.

(** *** What [_queue] yields *)

Lemma queue_all_items (us : list (string * Payload)) :
  (forall p, pickle_loads (pickle_dumps p) = p) ->
  forall w : World,
  table_ok (fworker_queue (self w)) ->
  exists w1,
    queue_all us w = (Returned tt, w1) /\
    table_ok (fworker_queue (self w1)) /\
    map item (fworker_queue (self w1)) =
      map item (fworker_queue (self w))
      ++ numbered (next_rowid (fworker_queue (self w))) us.
Proof.
  intros Hpickle. induction us as [|[u p] us IH]; intros w Hok.
  - exists w. simpl. rewrite app_nil_r. now repeat split.
  - simpl. unfold bind at 1. rewrite queue_run.
    destruct (IH (mkWorld
                    (set_stuff_queued true
                       (set_table
                          (sql_insert u (pickle_dumps p)
                             (fworker_queue (self w)))
                          (set_db (Some Connection) (self w))))
                    (trace w)))
      as (w1 & Hrun & Hok1 & Hitems).
    { simpl. now apply sql_insert_ok. }
    simpl in Hitems. exists w1.
    split; [exact Hrun|]. split; [exact Hok1|].
    rewrite Hitems, next_rowid_insert. unfold sql_insert.
    rewrite map_app, <- app_assoc. simpl.
    unfold item at 2. simpl. now rewrite Hpickle.
Qed.

(** X2: what was queued is what [_queue] yields.  On an open connection,
    after [queue] was called for a list of updates, [_queue] yields the
    rows that were there before, under the rowids they had, then one tuple
    per update, in the order of the calls, with the url and the very
    payload object handed in, under consecutive rowids above those
    present. *)
Theorem X2_queue_then__queue_round_trip
    (us : list (string * Payload)) (w : World) :
  (forall p, pickle_loads (pickle_dumps p) = p) ->
  _db (self w) = Some Connection ->
  table_ok (fworker_queue (self w)) ->
  fst (bind (queue_all us) (fun _ => _queue pickle_loads (Manager := Manager))
         w) =
  Returned (map item (fworker_queue (self w))
            ++ numbered (next_rowid (fworker_queue (self w))) us).
Proof.
  intros Hpickle _ Hok.
  destruct (queue_all_items us Hpickle w Hok) as (w1 & Hrun & Hok1 & Hitems).
  unfold bind. rewrite Hrun, _queue_run. cbn [fst].
  now rewrite (sql_select_ordered_ok Hok1), Hitems.
Qed.


(** *** [ORDER BY rowid ASC] on any table *)






(** *** [_unqueue] *)

Lemma sql_delete_absent (i : Z) (t : list Row) :
  ~ In i (map (@rowid Blob) t) -> sql_delete i t = t.
Proof.
  induction t as [|r t IH]; simpl; intros Hnot; [reflexivity|].
  destruct (Z.eqb_spec (rowid r) i) as [Heq|Hne]; simpl.
  - exfalso. apply Hnot. now left.
  - rewrite IH; [reflexivity|]. intros Hin. apply Hnot. now right.
Qed.

Lemma sql_delete_nth (t : list Row) :
  forall (j : nat) (row : Row),
  table_ok t ->
  nth_error t j = Some row ->
  sql_delete (rowid row) t = firstn j t ++ skipn (S j) t.
Proof.
  induction t as [|r t IH]; intros [|j] row Hok Hnth; simpl in Hnth;
    try discriminate.
  - injection Hnth as ->. now rewrite sql_delete_head.
  - pose proof (table_ok_head_lt Hok) as Hlt.
    rewrite Forall_forall in Hlt.
    specialize (Hlt row (nth_error_In _ _ Hnth)).
    change (sql_delete (rowid row) (r :: t))
      with (if negb (rowid r =? rowid row)
            then r :: sql_delete (rowid row) t
            else sql_delete (rowid row) t).
    destruct (Z.eqb_spec (rowid r) (rowid row)); [lia|]. simpl.
    f_equal. apply IH; [exact (table_ok_tail Hok) | exact Hnth].
Qed.

Lemma sql_delete_ok (i : Z) (t : list Row) :
  table_ok t -> table_ok (sql_delete i t).
Proof.
  unfold table_ok. induction t as [|r t IH]; simpl; intros Hok;
    [constructor|].
  inversion Hok as [|? ? Hs Hall]; subst.
  destruct (negb (rowid r =? i)); simpl; [|now apply IH].
  constructor; [now apply IH|].
  rewrite Forall_forall in *. intros x Hx. apply Hall.
  apply in_map_iff in Hx. destruct Hx as (r' & <- & Hr').
  apply in_map. unfold sql_delete in Hr'. now apply filter_In in Hr'.
Qed.

Lemma _unqueue_run (i : Z) (w : World) :
  _db (self w) = Some Connection ->
  _unqueue i w =
  (Returned tt,
   mkWorld (set_table (sql_delete i (fworker_queue (self w))) (self w))
     (trace w ++ [EvUnqueue i])).
Proof.
  intros Hdb. unfold _unqueue, bind, get_self. cbn [fst snd].
  rewrite Hdb. reflexivity.
Qed.

(** X4: on an open connection [_unqueue] never raises and makes no
    request.  For a rowid that no row carries it leaves the table as it
    is; for the rowid of a queued row it removes that row and no other,
    keeps the others in their order, and takes [queue_size] down by
    exactly one. *)
Theorem X4__unqueue_removes_just_that_row (i : Z) (w : World) :
  _db (self w) = Some Connection ->
  table_ok (fworker_queue (self w)) ->
  let t := fworker_queue (self w) in
  let w' := snd (_unqueue (Payload := Payload) i w) in
  fst (_unqueue (Payload := Payload) i w) = Returned tt /\
  posts (trace w') = posts (trace w) /\
  (~ In i (map (@rowid Blob) t) -> fworker_queue (self w') = t) /\
  (forall j row,
     nth_error t j = Some row -> rowid row = i ->
     fworker_queue (self w') = firstn j t ++ skipn (S j) t /\
     ~ In row (fworker_queue (self w')) /\
     fst (queue_size w') = Returned (sql_count t - 1)).
Proof.
  intros Hdb Hok t w'. subst t w'.
  rewrite _unqueue_run by exact Hdb. cbn [fst snd self trace].
  split; [reflexivity|]. split.
  - rewrite posts_app. simpl. apply app_nil_r.
  - split; [apply sql_delete_absent|].
    intros j row Hnth <-. simpl fworker_queue.
    rewrite (sql_delete_nth _ Hok Hnth). split; [reflexivity|]. split.
    + intros Hin. apply in_app_or in Hin. destruct Hin as [Hin|Hin].
      * apply (@table_ok_split (fworker_queue (self w)) j row Hok Hin).
        apply nth_error_In with (n := 0%nat).
        rewrite nth_error_skipn, Nat.add_0_r. exact Hnth.
      * apply (@table_ok_split (fworker_queue (self w)) (S j) row Hok);
          [|exact Hin].
        rewrite <- (firstn_snoc _ _ Hnth). apply in_or_app. right. now left.
    + rewrite queue_size_run. cbn [fst]. f_equal.
      unfold connected, set_db, set_table. cbn [self fworker_queue].
      unfold sql_count. rewrite length_app.
      assert (Hj : (j < List.length (fworker_queue (self w)))%nat)
        by (apply nth_error_Some; congruence).
      rewrite firstn_length_le, length_skipn by lia. lia.
Qed.


(** *** What no pass does, for any table and any Manager *)

Lemma flush_loop_frame (items : list (Z * string * Payload)) :
  forall (qe : bool) (h : Z) (w : World) res w',
  _db (self w) = Some Connection ->
  flush_loop items qe h w = (res, w') ->
  same_settings (self w) (self w') /\
  (h <= 1000 ->
   Z.of_nat (List.length (posts (trace w'))) <=
     Z.of_nat (List.length (posts (trace w))) + (1001 - h) /\
   Z.of_nat (List.length (unqueued (trace w'))) <=
     Z.of_nat (List.length (unqueued (trace w))) + (1001 - h)).
Proof.
  assert (Hone : forall (tr : list event) u p r,
            List.length (posts (tr ++ [EvPost u p r])) =
              S (List.length (posts tr)) /\
            List.length (unqueued (tr ++ [EvPost u p r])) =
              List.length (unqueued tr)).
  { intros. rewrite posts_app, unqueued_app, !length_app. simpl. lia. }
  assert (Htwo : forall (tr : list event) i,
            List.length (posts (tr ++ [EvUnqueue i])) =
              List.length (posts tr) /\
            List.length (unqueued (tr ++ [EvUnqueue i])) =
              S (List.length (unqueued tr))).
  { intros. rewrite posts_app, unqueued_app, !length_app. simpl. lia. }
  induction items as [|[[i u] p] rest IH]; intros qe h w res w' Hdb.
  - intros Hrun. compute in Hrun. injection Hrun as <- <-.
    split; [now split | lia].
  - rewrite flush_loop_step by exact Hdb.
    destruct (manager_post _ _ _) as [[resp|e] m'];
      [destruct (accepted resp); [destruct (h + 1 >? 1000) eqn:Hcap|]|].
    + intros [= <- <-]. split; [now split|]. intros Hh. cbn [trace].
      destruct (Htwo (trace w ++ [EvPost u p (Returned resp)]) i) as [-> ->].
      destruct (Hone (trace w) u p (Returned resp)) as [-> ->]. lia.
    + intros Hrun. apply IH in Hrun; [|exact Hdb].
      destruct Hrun as (Hset & Hbound). split; [exact Hset|].
      intros Hh.
      assert (Hh' : h + 1 <= 1000)
        by (destruct (Z.gtb_spec (h + 1) 1000); [discriminate | lia]).
      specialize (Hbound Hh'). cbn [trace] in Hbound.
      destruct (Htwo (trace w ++ [EvPost u p (Returned resp)]) i)
        as [E1 E2].
      destruct (Hone (trace w) u p (Returned resp)) as [E3 E4].
      rewrite E1, E2, E3, E4 in Hbound. lia.
    + intros [= <- <-]. split; [now split|]. intros Hh. cbn [trace].
      destruct (Hone (trace w) u p (Returned resp)) as [-> ->]. lia.
    + intros [= <- <-]. split; [now split|]. intros Hh. cbn [trace].
      destruct (Hone (trace w) u p (Raised e)) as [-> ->]. lia.
Qed.

Lemma flush_frame (w : World) :
  same_settings (self w) (self (snd (flush w))) /\
  (List.length (posts (trace (snd (flush w))))
     <= List.length (posts (trace w)) + 1001)%nat /\
  (List.length (unqueued (trace (snd (flush w))))
     <= List.length (unqueued (trace w)) + 1001)%nat.
Proof.
  rewrite flush_unfold.
  destruct (flush_loop _ true 0 (connected w)) as [res w1] eqn:Hloop.
  apply flush_loop_frame in Hloop; [|reflexivity].
  destruct Hloop as (Hset & Hbound). specialize (Hbound ltac:(lia)).
  cbn [trace self connected] in Hset, Hbound.
  destruct res as [[[] h]|e]; cbn [snd trace self connected];
    (split; [exact Hset | lia]).
Qed.

(** X5: a pass makes at most 1001 requests and unqueues at most 1001 rows,
    whatever the table holds and whatever the Manager answers, and it
    assigns neither [backoff_time] nor [shutdown_recheck_time]. *)
Theorem X5_pass_is_bounded (w : World) :
  (List.length (posts (trace (snd (flush w))))
     <= List.length (posts (trace w)) + 1001)%nat /\
  (List.length (unqueued (trace (snd (flush w))))
     <= List.length (unqueued (trace w)) + 1001)%nat /\
  backoff_time (self (snd (flush w))) = backoff_time (self w) /\
  shutdown_recheck_time (self (snd (flush w))) =
    shutdown_recheck_time (self w).
Proof.
  destruct (flush_frame w) as ([Hb Hr] & Hp & Hu). now repeat split.
Qed.

(** *** The two wrappers of [flush] *)

Lemma flush_and_report_unfold (w : World) :
  flush_and_report w = (Returned tt, snd (flush w)).
Proof.
  unfold flush_and_report, try_except, bind, ret.
  destruct (flush w) as [[b|e] w1]; reflexivity.
Qed.

(** X6: [flush_and_report] never raises, whatever exception the pass ends
    with, and never waits: it leaves the store, the event and the trace
    exactly as [flush] leaves them.  On a well-formed table, when the pass
    ended with an exception the row whose POST failed is still the first
    row of the store. *)
Theorem X6_flush_and_report_swallows_errors (w : World) :
  fst (flush_and_report w) = Returned tt /\
  snd (flush_and_report w) = snd (flush w) /\
  (table_ok (fworker_queue (self w)) ->
   forall e, fst (flush w) = Raised e ->
   exists row rest u p r,
     fworker_queue (self (snd (flush_and_report w))) = row :: rest /\
     In row (fworker_queue (self w)) /\
     request row = (u, p) /\
     last (trace (snd (flush_and_report w))) (EvUnqueue 0) = EvPost u p r /\
     failed_with r e).
Proof.
  rewrite flush_and_report_unfold. cbn [fst snd].
  split; [reflexivity|]. split; [reflexivity|].
  intros Hok e He. destruct (flush w) as [res w'] eqn:Hflush.
  cbn [fst snd] in *. subst res.
  destruct (flush_run _ Hok Hflush)
    as (k & rs & tail & _ & _ & _ & _ & Htr & Ht & _ & row & r & Hnth & ->
        & Hfail).
  destruct (skipn k (fworker_queue (self w))) as [|row' rest] eqn:Hskip.
  - exfalso.
    assert (Hn : nth_error (skipn k (fworker_queue (self w))) 0 = Some row)
      by (rewrite nth_error_skipn, Nat.add_0_r; exact Hnth).
    rewrite Hskip in Hn. discriminate.
  - assert (Hn : nth_error (skipn k (fworker_queue (self w))) 0 = Some row)
      by (rewrite nth_error_skipn, Nat.add_0_r; exact Hnth).
    rewrite Hskip in Hn. injection Hn as ->.
    exists row, rest, (url row), (pickle_loads (payload row)), r.
    split; [exact Ht|]. split; [eapply nth_error_In; exact Hnth|].
    split; [reflexivity|]. split; [|exact Hfail].
    rewrite Htr, !app_assoc. apply last_last.
Qed.

(** X7: [flush_and_catch] never raises.  When the pass returns it leaves
    the world as [flush] leaves it and does not wait; when the pass raises,
    whatever the exception, it waits once, for the [backoff_time] the queue
    was built with, after everything the pass did. *)
Theorem X7_flush_and_catch_waits_only_after_failure (w : World) :
  fst (flush_and_catch w) = Returned tt /\
  (forall b, fst (flush w) = Returned b ->
     snd (flush_and_catch w) = snd (flush w)) /\
  (forall e, fst (flush w) = Raised e ->
     self (snd (flush_and_catch w)) = self (snd (flush w)) /\
     trace (snd (flush_and_catch w)) =
       trace (snd (flush w)) ++ [EvSleep (backoff_time (self w))]).
Proof.
  rewrite flush_and_catch_unfold.
  destruct (flush_frame w) as ([Hb _] & _).
  destruct (flush w) as [[b|e] w1]; cbn [fst snd] in *.
  - split; [reflexivity|]. split; [reflexivity|]. discriminate.
  - split; [reflexivity|]. split; [discriminate|].
    intros _ _. cbn [self trace]. now rewrite Hb.
Qed.



(** *** The drain loop *)

Lemma work_loop_unfold (n : nat) (w : World) :
  work_loop (S n) w =
  if _stuff_queued (self w)
  then work_loop n (snd (flush_and_catch w))
  else work_loop n
         (mkWorld (self w)
            (trace w ++ [EvTimeout (shutdown_recheck_time (self w))])).
Proof.
  destruct (_stuff_queued (self w)) eqn:Hset.
  - now apply work_loop_round.
  - simpl. unfold bind at 1.
    unfold wait_for_stuff_queued, bind, get_self, ret, emit.
    rewrite Hset. reflexivity.
Qed.

Lemma work_unfold (rounds : nat) (w : World) :
  work rounds w =
  work_loop rounds (mkWorld (set_stuff_queued true (self w)) (trace w)).
Proof. reflexivity. Qed.

Lemma flush_and_catch_table (w : World) :
  fworker_queue (self (snd (flush_and_catch w))) =
  fworker_queue (self (snd (flush w))).
Proof.
  rewrite flush_and_catch_unfold. now destruct (flush w) as [[b|e] w1].
Qed.

Lemma work_loop_table_ok (n : nat) :
  forall w : World,
  table_ok (fworker_queue (self w)) ->
  table_ok (fworker_queue (self (snd (work_loop n w)))).
Proof.
  induction n as [|n IH]; intros w Hok; [exact Hok|].
  rewrite work_loop_unfold. destruct (_stuff_queued (self w)).
  - apply IH. rewrite flush_and_catch_table. now apply flush_table_ok.
  - now apply IH.
Qed.

(** X8: rowids stay unique and ascending in storage order under every
    operation of the queue: [queue], [_unqueue] (on an open connection), a
    drain pass, its two wrappers and the drain loop all turn a well-formed
    table into a well-formed table. *)
Theorem X8_rowids_stay_unique_and_ascending (w : World) :
  table_ok (fworker_queue (self w)) ->
  (forall u p, table_ok (fworker_queue (self (snd (queue u p w))))) /\
  (_db (self w) = Some Connection ->
   forall i,
     table_ok
       (fworker_queue (self (snd (_unqueue (Payload := Payload) i w))))) /\
  table_ok (fworker_queue (self (snd (flush w)))) /\
  table_ok (fworker_queue (self (snd (flush_and_catch w)))) /\
  table_ok (fworker_queue (self (snd (flush_and_report w)))) /\
  (forall rounds, table_ok (fworker_queue (self (snd (work rounds w))))).
Proof.
  intros Hok.
  split; [intros u p; now apply queue_table_ok|].
  split; [intros Hdb i; rewrite _unqueue_run by exact Hdb;
          now apply sql_delete_ok|].
  split; [now apply flush_table_ok|].
  split; [rewrite flush_and_catch_table; now apply flush_table_ok|].
  split; [rewrite flush_and_report_unfold; now apply flush_table_ok|].
  intros rounds. rewrite work_unfold. now apply work_loop_table_ok.
Qed.

(** With the event cleared and nothing queued, the loop only waits. *)
Lemma work_loop_idle (n : nat) :
  forall w : World,
  _stuff_queued (self w) = false ->
  work_loop n w =
  (Returned tt,
   mkWorld (self w)
     (trace w ++ repeat (EvTimeout (shutdown_recheck_time (self w))) n)).
Proof.
  induction n as [|n IH]; intros w Hset.
  - simpl. unfold ret. rewrite app_nil_r. now destruct w.
  - rewrite work_loop_unfold, Hset, IH by exact Hset.
    cbn [self trace]. now rewrite <- app_assoc.
Qed.

Lemma flush_empty (w : World) :
  fworker_queue (self w) = [] ->
  flush w =
  (Returned true,
   mkWorld (set_stuff_queued false (set_db (Some Connection) (self w)))
     (trace w)).
Proof. intros Ht. rewrite flush_unfold, Ht. reflexivity. Qed.

(** X9: started on an empty store, the drain loop makes one pass, which
    POSTs nothing and clears the event, and from then on only waits
    [shutdown_recheck_time] per round until it is shut down; it never
    raises and the store stays empty. *)
Theorem X9_work_on_empty_store_only_waits (n : nat) (w : World) :
  fworker_queue (self w) = [] ->
  work (S n) w =
  (Returned tt,
   mkWorld (set_stuff_queued false (set_db (Some Connection) (self w)))
     (trace w ++ repeat (EvTimeout (shutdown_recheck_time (self w))) n)).
Proof.
  intros Ht. rewrite work_unfold, work_loop_unfold.
  cbn [self _stuff_queued set_stuff_queued].
  rewrite flush_and_catch_unfold, flush_empty by exact Ht.
  cbn [snd]. rewrite work_loop_idle by reflexivity. reflexivity.
Qed.



(** *** Delivery to a cooperating Manager *)

(** X10: against a Manager that answers every request with an accepted
    response, a pass over a well-formed table never raises; it POSTs the
    first 1001 queued requests (all of them if there are fewer), in rowid
    order, and leaves exactly the rows after these. *)
Theorem X10_pass_delivers_to_cooperating_manager (w : World) :
  (forall m u p, exists resp,
      fst (manager_post m u p) = Returned resp /\ accepted resp = true) ->
  table_ok (fworker_queue (self w)) ->
  exists b,
    fst (flush w) = Returned b /\
    fworker_queue (self (snd (flush w))) =
      skipn 1001 (fworker_queue (self w)) /\
    posts (trace (snd (flush w))) =
      posts (trace w) ++ map request (firstn 1001 (fworker_queue (self w))) /\
    ((List.length (fworker_queue (self w)) <= 1001)%nat ->
     fworker_queue (self (snd (flush w))) = [] /\
     posts (trace (snd (flush w))) =
       posts (trace w) ++ map request (fworker_queue (self w))).
Proof.
  intros Hcoop Hok.
  destruct (flush_cooperating Hcoop w Hok) as (b & Hret & Ht & Hp).
  exists b. split; [exact Hret|]. split; [exact Ht|]. split; [exact Hp|].
  intros Hle. rewrite Ht, Hp. rewrite skipn_all2, firstn_all2 by lia.
  now split.
Qed.

Lemma firstn_add_skipn (A : Type) (a b : nat) (l : list A) :
  firstn a l ++ firstn b (skipn a l) = firstn (a + b) l.
Proof.
  revert l. induction a as [|a IH]; intros [|x l]; simpl;
    try reflexivity.
  - now rewrite firstn_nil.
  - now rewrite IH.
Qed.

Lemma work_loop_cooperating (n : nat) :
  (forall m u p, exists resp,
      fst (manager_post m u p) = Returned resp /\ accepted resp = true) ->
  forall w : World,
  table_ok (fworker_queue (self w)) ->
  (_stuff_queued (self w) = true \/ fworker_queue (self w) = []) ->
  fst (work_loop n w) = Returned tt /\
  fworker_queue (self (snd (work_loop n w))) =
    skipn (1001 * n) (fworker_queue (self w)) /\
  posts (trace (snd (work_loop n w))) =
    posts (trace w)
    ++ map request (firstn (1001 * n) (fworker_queue (self w))) /\
  (_stuff_queued (self w) = false ->
   _stuff_queued (self (snd (work_loop n w))) = false) /\
  ((List.length (fworker_queue (self w)) + 1001 <= 1001 * n)%nat ->
   _stuff_queued (self (snd (work_loop n w))) = false).
Proof.
  intros Hcoop. induction n as [|n IH]; intros w Hok Hinv.
  - rewrite Nat.mul_0_r. cbn [work_loop]. unfold ret. cbn [fst snd].
    cbn [firstn skipn map]. rewrite app_nil_r.
    split; [reflexivity|]. split; [reflexivity|]. split; [reflexivity|].
    split; [easy | lia].
  - rewrite work_loop_unfold.
    replace (1001 * S n)%nat with (1001 + 1001 * n)%nat by lia.
    destruct (_stuff_queued (self w)) eqn:Hset.
    + destruct (flush_cooperating Hcoop w Hok) as (b & Hret & Ht & Hp).
      assert (Hfc : snd (flush_and_catch w) = snd (flush w)).
      { rewrite flush_and_catch_unfold.
        destruct (flush w) as [[b'|e] w1]; [reflexivity | discriminate]. }
      rewrite Hfc.
      assert (Hev : _stuff_queued (self (snd (flush w))) =
                    match fworker_queue (self w) with
                    | [] => false
                    | _ :: _ => true
                    end).
      { generalize (flush_flag w).
        destruct (flush w) as [[b'|e] w1]; [|discriminate].
        cbn [snd]. intros [-> ->].
        destruct (fworker_queue (self w)); [reflexivity | exact Hset]. }
      assert (Hinv1 : _stuff_queued (self (snd (flush w))) = true \/
                      fworker_queue (self (snd (flush w))) = []).
      { rewrite Hev, Ht. destruct (fworker_queue (self w));
          [right; apply skipn_nil | now left]. }
      destruct (IH _ (@flush_table_ok w Hok) Hinv1)
        as (Hr & Htab & Hposts & Hkeep & Hclear).
      split; [exact Hr|]. split; [|split; [|split]].
      * rewrite Htab, Ht, skipn_skipn. f_equal. lia.
      * rewrite Hposts, Hp, Ht, <- app_assoc, <- map_app.
        now rewrite firstn_add_skipn.
      * discriminate.
      * intros Hlen.
        destruct (fworker_queue (self w)) as [|r t] eqn:Etab.
        -- apply Hkeep. exact Hev.
        -- apply Hclear. rewrite Ht, length_skipn.
           cbn [List.length] in Hlen |- *. lia.
    + destruct Hinv as [Hinv|Hinv]; [discriminate|].
      destruct (IH (mkWorld (self w)
                      (trace w
                       ++ [EvTimeout (shutdown_recheck_time (self w))])))
        as (Hr & Htab & Hposts & Hkeep & Hclear);
        [exact Hok | now right |].
      cbn [self trace] in *. rewrite Hinv in *.
      rewrite skipn_nil, firstn_nil in *.
      rewrite posts_app in Hposts. cbn [posts flat_map app map] in Hposts.
      split; [exact Hr|]. split; [exact Htab|]. split; [|split].
      * rewrite Hposts. cbn [map]. now rewrite !app_nil_r.
      * intros _. now apply Hkeep.
      * intros _. now apply Hkeep.
Qed.

(** X11: against a Manager that answers every request with an accepted
    response, the drain loop never raises or backs off; after [rounds]
    rounds it has POSTed the first 1001 * rounds queued requests, in rowid
    order, each once, and the store holds the rows after these.  With one
    round more than the queued rows need, the store is empty, every
    queued request was POSTed and the event is cleared. *)
Theorem X11_work_drains_to_quiescence (rounds : nat) (w : World) :
  (forall m u p, exists resp,
      fst (manager_post m u p) = Returned resp /\ accepted resp = true) ->
  table_ok (fworker_queue (self w)) ->
  fst (work rounds w) = Returned tt /\
  fworker_queue (self (snd (work rounds w))) =
    skipn (1001 * rounds) (fworker_queue (self w)) /\
  posts (trace (snd (work rounds w))) =
    posts (trace w)
    ++ map request (firstn (1001 * rounds) (fworker_queue (self w))) /\
  ((List.length (fworker_queue (self w)) + 1001 <= 1001 * rounds)%nat ->
   fworker_queue (self (snd (work rounds w))) = [] /\
   posts (trace (snd (work rounds w))) =
     posts (trace w) ++ map request (fworker_queue (self w)) /\
   _stuff_queued (self (snd (work rounds w))) = false).
Proof.
  intros Hcoop Hok. rewrite work_unfold.
  destruct (@work_loop_cooperating rounds Hcoop
              (mkWorld (set_stuff_queued true (self w)) (trace w)) Hok
              (or_introl eq_refl))
    as (Hr & Htab & Hposts & _ & Hclear).
  cbn [self trace _stuff_queued fworker_queue set_stuff_queued] in *.
  split; [exact Hr|]. split; [exact Htab|]. split; [exact Hposts|].
  intros Hlen. rewrite Htab, Hposts.
  rewrite skipn_all2, firstn_all2 by lia.
  split; [reflexivity|]. split; [reflexivity|]. now apply Hclear.
Qed.



(** *** The drain loop against any Manager *)

Lemma work_loop_any (n : nat) :
  forall w : World,
  table_ok (fworker_queue (self w)) ->
  fst (work_loop n w) = Returned tt /\
  exists k,
    fworker_queue (self (snd (work_loop n w))) =
      skipn k (fworker_queue (self w)).
Proof.
  induction n as [|n IH]; intros w Hok.
  - split; [reflexivity|]. now exists 0%nat.
  - rewrite work_loop_unfold. destruct (_stuff_queued (self w)).
    + assert (Hok1 : table_ok (fworker_queue (self (snd (flush_and_catch w)))))
        by (rewrite flush_and_catch_table; now apply flush_table_ok).
      destruct (IH _ Hok1) as (Hr & k & Hk). split; [exact Hr|].
      rewrite Hk, flush_and_catch_table.
      destruct (flush w) as [res w1] eqn:Hflush.
      destruct (flush_run _ Hok Hflush)
        as (k1 & rs & tail & _ & _ & _ & _ & _ & Ht & _).
      cbn [snd]. rewrite Ht, skipn_skipn. now eexists.
    + destruct (IH (mkWorld (self w)
                      (trace w
                       ++ [EvTimeout (shutdown_recheck_time (self w))])) Hok)
        as (Hr & k & Hk).
      split; [exact Hr|]. now exists k.
Qed.

(** X18: whatever the Manager does, the drain loop never raises, and it
    takes rows only from the front of the queue: what the store holds when
    the loop stops is the queue it started with minus its first rows. *)
Theorem X18_work_survives_any_manager (rounds : nat) (w : World) :
  table_ok (fworker_queue (self w)) ->
  fst (work rounds w) = Returned tt /\
  exists k,
    fworker_queue (self (snd (work rounds w))) =
      skipn k (fworker_queue (self w)).
Proof.
  intros Hok. rewrite work_unfold.
  exact (@work_loop_any rounds
           (mkWorld (set_stuff_queued true (self w)) (trace w)) Hok).
Qed.

(** A pass over a queue that is not empty starts by POSTing its first
    row. *)
Lemma flush_first_post (w : World) (row : Row) (rest : list Row) :
  table_ok (fworker_queue (self w)) ->
  fworker_queue (self w) = row :: rest ->
  exists r,
    nth_error (trace (snd (flush w))) (List.length (trace w)) =
    Some (EvPost (url row) (pickle_loads (payload row)) r).
Proof.
  intros Hok Ht. destruct (flush w) as [res w'] eqn:Hflush. cbn [snd].
  destruct (flush_positions _ Hok Hflush)
    as (k & Hle & _ & _ & _ & Hhandled & Hres).
  rewrite Ht in *. destruct k as [|k].
  - destruct res as [b|e].
    + destruct Hres as (_ & [Hk|Hk]); discriminate.
    + destruct Hres as (_ & row' & r & Hnth & Hp & _).
      simpl in Hnth. injection Hnth as <-.
      exists r. now rewrite Nat.add_0_r in Hp.
  - destruct (Hhandled 0%nat ltac:(lia)) as (row' & resp & Hnth & _ & Hp & _).
    simpl in Hnth. injection Hnth as <-.
    exists (Returned resp). now rewrite Nat.add_0_r in Hp.
Qed.

(** X19: an update whose POST failed is tried again.  When a pass of the
    drain loop raises, the failed row is still the first of the store and
    the event is still set; the loop sleeps [backoff_time] and its next
    round starts by POSTing that same row, with the same url and
    payload. *)
Theorem X19_failed_update_is_retried_after_backoff
    (w : World) (e : exn) (w1 : World) :
  table_ok (fworker_queue (self w)) ->
  _stuff_queued (self w) = true ->
  flush w = (Raised e, w1) ->
  let w2 := snd (flush_and_catch w) in
  exists row rest r r',
    fworker_queue (self w2) = row :: rest /\
    In row (fworker_queue (self w)) /\
    _stuff_queued (self w2) = true /\
    trace w2 = trace w1 ++ [EvSleep (backoff_time (self w))] /\
    last (trace w1) (EvUnqueue 0) =
      EvPost (url row) (pickle_loads (payload row)) r /\
    failed_with r e /\
    work_loop 2 w = (Returned tt, snd (flush_and_catch w2)) /\
    nth_error (trace (snd (flush_and_catch w2))) (List.length (trace w2)) =
      Some (EvPost (url row) (pickle_loads (payload row)) r').
Proof.
  intros Hok Hset Hflush w2.
  assert (Hw2 : w2 = mkWorld (self w1)
                       (trace w1 ++ [EvSleep (backoff_time (self w))])).
  { subst w2. rewrite flush_and_catch_unfold, Hflush. cbn [snd].
    destruct (flush_frame w) as ([Hb _] & _). rewrite Hflush in Hb.
    cbn [snd] in Hb. now rewrite Hb. }
  destruct (flush_run _ Hok Hflush)
    as (k & rs & tail & _ & _ & _ & _ & Htr & Ht & _ & row & r & Hnth & ->
        & Hfail).
  assert (Hhead : exists rest, fworker_queue (self w1) = row :: rest).
  { rewrite Ht.
    assert (Hn : nth_error (skipn k (fworker_queue (self w))) 0 = Some row)
      by (rewrite nth_error_skipn, Nat.add_0_r; exact Hnth).
    destruct (skipn k (fworker_queue (self w))) as [|row' rest];
      [discriminate|].
    injection Hn as ->. now exists rest. }
  destruct Hhead as [rest Hhead].
  assert (Hok2 : table_ok (fworker_queue (self w2))).
  { rewrite Hw2. cbn [self]. rewrite Ht. now apply table_ok_skipn. }
  assert (Hev : _stuff_queued (self w1) = true).
  { generalize (flush_flag w). rewrite Hflush. intros [_ ->]. exact Hset. }
  destruct (@flush_first_post w2 row rest Hok2) as [r' Hfirst].
  { rewrite Hw2. exact Hhead. }
  exists row, rest, r, r'.
  split; [rewrite Hw2; exact Hhead|].
  split; [eapply nth_error_In; exact Hnth|].
  split; [rewrite Hw2; exact Hev|].
  split; [rewrite Hw2; reflexivity|].
  split; [rewrite Htr, !app_assoc; apply last_last|].
  split; [exact Hfail|]. split.
  - rewrite work_loop_round by exact Hset. fold w2.
    rewrite work_loop_round by (rewrite Hw2; exact Hev). reflexivity.
  - rewrite flush_and_catch_unfold.
    destruct (flush w2) as [[b|e2] w3] eqn:Hflush2; cbn [snd] in *;
      [exact Hfirst|].
    cbn [trace]. rewrite nth_error_app1; [exact Hfirst|].
    apply nth_error_Some. congruence.
Qed.


End UpdateQueueFacts.

(** * The claims on a concrete worker *)

Lemma Scenario_pickle_roundtrip :
  forall p, Scenario.pickle_loads (Scenario.pickle_dumps p) = p.
Proof. exact string_of_list_ascii_of_string. Qed.

Lemma Accepting_cooperates :
  forall (m : Accepting.Manager) (u : string) (p : Scenario.Payload),
  exists resp,
    fst (Accepting.manager_post m u p) = Returned resp /\
    accepted resp = true.
Proof.
  intros m u p. exists (mkResponse 200 "answer"). split; reflexivity.
Qed.

(** C1 as stated does not hold: the POST of the first update is answered
    304, which is neither 2xx nor 409, and its row is removed all the
    same (the second POST cannot connect, so that row stays). *)
Lemma C1_counterexample_status_304 :
  let w := Scenario.enqueue_all (Scenario.updates 2)
             (Scenario.start [Scenario.answer 304; Raised ConnectionError]) in
  let w' := snd (Scenario.run_flush w) in
  map (@rowid _) (fworker_queue (self w)) = [1; 2] /\
  trace w' =
    [EvPost "/tasks/12345/update" "1"%string (Scenario.answer 304);
     EvUnqueue 1;
     EvPost "/tasks/12345/update" "2"%string (Raised ConnectionError)] /\
  ~ (200 <= 304 < 300) /\ 304 <> 409 /\
  map (@rowid _) (fworker_queue (self w')) = [2].
Proof.
  vm_compute. repeat split; try reflexivity; try discriminate.
  intros [_ H]; discriminate H.
Qed.

(** Three updates are queued; the Manager accepts the first and cannot be
    reached for the second. *)
Lemma C1_witness :
  let w0 := Scenario.start [Scenario.answer 204; Raised ConnectionError] in
  let us := Scenario.updates 3 in
  let w1 := snd (queue_all (Manager := Scenario.Manager)
                   Scenario.pickle_dumps us w0) in
  table_ok (fworker_queue (self w0)) /\
  forall row,
    In row (fworker_queue (self w1)) ->
    In row (fworker_queue (self (snd (Scenario.run_flush w1)))) \/
    exists resp,
      accepted resp = true /\
      In (EvPost (url row) (Scenario.pickle_loads (payload row))
            (Returned resp))
         (trace (snd (Scenario.run_flush w1))).
Proof.
  intros w0 us w1.
  assert (Hok : table_ok (fworker_queue (self w0))) by constructor.
  split; [exact Hok|].
  apply (@C1_delivered_or_still_queued _ _ Scenario.pickle_dumps
           Scenario.pickle_loads _ Scenario.manager_post us w0
           (fst (Scenario.run_flush w1)) (snd (Scenario.run_flush w1))
           Scenario_pickle_roundtrip Hok).
  apply surjective_pairing.
Defined.

(** Three updates are queued; the Manager answers 200, 409 and 200. *)
Lemma C2_witness :
  let w0 := Scenario.start [Scenario.answer 200; Scenario.answer 409] in
  let us := Scenario.updates 3 in
  let w1 := snd (queue_all (Manager := Scenario.Manager)
                   Scenario.pickle_dumps us w0) in
  table_ok (fworker_queue (self w0)) /\
  exists n : nat,
    posts (trace (snd (Scenario.run_flush w1))) = firstn n us /\
    n = 3%nat.
Proof.
  intros w0 us w1.
  assert (Hok : table_ok (fworker_queue (self w0))) by constructor.
  split; [exact Hok|].
  destruct (@C2_posts_in_enqueue_order _ _ Scenario.pickle_dumps
              Scenario.pickle_loads _ Scenario.manager_post us w0
              (fst (Scenario.run_flush w1)) (snd (Scenario.run_flush w1))
              Scenario_pickle_roundtrip Hok (surjective_pairing _))
    as (_ & _ & n & Hposts & _ & Hn).
  exists n. split; [exact Hposts | exact Hn].
Defined.



(** Three updates and a Manager that accepts everything: the pass delivers
    all three, leaves the store empty and returns False. *)
Lemma C5_witness :
  let w := Accepting.queued 3 in
  fst (flush Scenario.pickle_loads Accepting.manager_post w) = Returned false /\
  fworker_queue
    (self (snd (flush Scenario.pickle_loads Accepting.manager_post w))) = [] /\
  posts (trace (snd (flush Scenario.pickle_loads Accepting.manager_post w))) =
    Scenario.updates 3.
Proof.
  intros w.
  assert (Hok : table_ok (fworker_queue (self w)))
    by (vm_compute; repeat constructor).
  destruct (@C5_flush_answers_whether_empty_on_entry _ _
              Scenario.pickle_loads _ Accepting.manager_post w)
    as (_ & _ & _ & Hcoop).
  destruct (Hcoop Accepting_cooperates) as [Hret Hall].
  destruct (Hall Hok ltac:(vm_compute; lia)) as [Hempty Hposts].
  split; [exact Hret|]. split; [exact Hempty|]. rewrite Hposts. reflexivity.
Defined.

(** C4 as stated does not hold: the POST of the first update is answered
    304, neither 2xx nor 409, yet the pass goes on, removes both rows and
    [flush_and_catch] returns without sleeping. *)
Lemma C4_counterexample_status_304 :
  let w := Scenario.enqueue_all (Scenario.updates 2)
             (Scenario.start [Scenario.answer 304]) in
  let w' := snd (Scenario.run_flush_and_catch w) in
  map (@rowid _) (fworker_queue (self w)) = [1; 2] /\
  ~ (200 <= 304 < 300) /\ 304 <> 409 /\
  trace w' =
    [EvPost "/tasks/12345/update" "1"%string (Scenario.answer 304);
     EvUnqueue 1;
     EvPost "/tasks/12345/update" "2"%string (Scenario.answer 200);
     EvUnqueue 2] /\
  fworker_queue (self w') = [].
Proof.
  vm_compute. repeat split; try reflexivity; try discriminate.
  intros [_ H]; discriminate H.
Qed.

(** Three updates; the Manager accepts the first and answers 503 to the
    second. *)
Lemma C4_witness :
  let w := Scenario.enqueue_all (Scenario.updates 3)
             (Scenario.start [Scenario.answer 200; Scenario.answer 503]) in
  let w' := snd (Scenario.run_flush_and_catch w) in
  table_ok (fworker_queue (self w)) /\
  (400 <= 503 < 600 /\ 503 <> 409) /\
  fst (Scenario.run_flush_and_catch w) = Returned tt /\
  map (@rowid _) (fworker_queue (self w')) = [2; 3] /\
  trace w' = firstn 3 (trace w') ++ [EvSleep 5%Q].
Proof.
  intros w w'.
  assert (Hok : table_ok (fworker_queue (self w)))
    by (vm_compute; repeat constructor).
  assert (Hbad : 400 <= 503 < 600 /\ 503 <> 409) by lia.
  split; [exact Hok|]. split; [exact Hbad|].
  destruct (@C4_failed_post_stops_the_pass_and_backs_off _ _
              Scenario.pickle_loads _ Scenario.manager_post w
              (fst (Scenario.run_flush_and_catch w)) w'
              1%nat "/tasks/12345/update"%string "2"%string
              (Scenario.answer 503) Hok (surjective_pairing _) eq_refl
              (or_intror (ex_intro _ (mkResponse 503 "answer")
                            (conj eq_refl Hbad))))
    as (Hres & _ & Htr & _).
  split; [exact Hres|]. split; [reflexivity | exact Htr].
Defined.

(** C6 as stated does not hold: the pass delivers the one queued update,
    so the queue is fully drained by it, and the event is still set. *)
Lemma C6_counterexample_drained_but_set :
  let w := Scenario.enqueue_all (Scenario.updates 1) (Scenario.start []) in
  let w' := snd (Scenario.run_flush w) in
  _stuff_queued (self w) = true /\
  map (@rowid _) (fworker_queue (self w)) = [1] /\
  fst (Scenario.run_flush w) = Returned false /\
  trace w' =
    [EvPost "/tasks/12345/update" "1"%string (Scenario.answer 200);
     EvUnqueue 1] /\
  fworker_queue (self w') = [] /\
  _stuff_queued (self w') = true.
Proof. vm_compute. repeat split; reflexivity. Qed.

(** C7, on the code: with 1002 updates queued and a Manager that accepts
    everything, one pass POSTs and unqueues 1001 of them, one more than
    the cap of 1000, and leaves the last. *)
Theorem C7_pass_handles_1001_rows :
  let w := Scenario.enqueue_all (Scenario.updates 1002) (Scenario.start []) in
  let w' := snd (Scenario.run_flush w) in
  List.length (fworker_queue (self w)) = 1002%nat /\
  fst (Scenario.run_flush w) = Returned false /\
  List.length (posts (trace w')) = 1001%nat /\
  List.length (unqueued (trace w')) = 1001%nat /\
  map (@rowid _) (fworker_queue (self w')) = [1002].
Proof. vm_compute. repeat split; reflexivity. Qed.

(** A fresh queue over an empty store, whatever the Manager would say. *)
Lemma C10_witness :
  let w := Scenario.start [Raised ConnectionError] in
  fworker_queue (self w) = [] /\
  Scenario.run_flush w =
    (Returned true,
     mkWorld (set_stuff_queued false (set_db (Some Connection) (self w)))
       (trace w)).
Proof.
  intros w. split; [reflexivity|].
  apply (@C10_flush_on_empty_store _ _ Scenario.pickle_loads _
           Scenario.manager_post w eq_refl).
Defined.

(** * The may-I-run poller and the render-audio command *)

(** C8: when the answer has [may_keep_running] false and carries a
    [status_requested], [may_i_run] returns false and calls
    [worker.change_status] once, with that very string, whatever its bytes;
    in particular with the Cyrillic name of [test_go_asleep]. *)
Theorem C8_go_asleep_status_passed_unchanged
    (task_id s : string) (why : option string)
    (rest : list MayIRun.Answer) (paths : list string)
    (calls : list MayIRun.worker_call) :
  MayIRun.may_i_run task_id
    (MayIRun.mkFixture (MayIRun.mkAnswer false why (Some s) :: rest)
       paths calls) =
  (Some false,
   MayIRun.mkFixture rest (paths ++ [("/may-i-run/" ++ task_id)%string])
     (calls ++ [MayIRun.change_status s])) /\
  MayIRun.may_i_run "1234"
    (MayIRun.mkFixture
       [MayIRun.mkAnswer false (Some "switching status"%string)
          (Some MayIRun.Sergey)] [] []) =
  (Some false,
   MayIRun.mkFixture [] ["/may-i-run/1234"%string]
     [MayIRun.change_status MayIRun.Sergey]) /\
  String.length MayIRun.Sergey = 12%nat.
Proof. repeat split. Qed.

Section RenderAudioFacts.

Import RenderAudio.

Lemma chars_app (a b : string) :
  list_ascii_of_string (a ++ b) =
  (list_ascii_of_string a ++ list_ascii_of_string b)%list.
Proof.
  induction a as [|c a IH]; simpl; [reflexivity | now rewrite IH].
Qed.

Lemma split_plain (cs : list ascii) :
  forall (rest : list ascii) (tok : option (list ascii)),
  forallb plain cs = true ->
  split_words (cs ++ rest) Unquoted tok =
  split_words rest Unquoted
    match cs with
    | [] => tok
    | _ :: _ => Some (rev cs ++ started tok)
    end.
Proof.
  induction cs as [|c cs IH]; intros rest tok Hplain; [reflexivity|].
  simpl in Hplain. apply andb_prop in Hplain. destruct Hplain as [Hc Hcs].
  unfold plain in Hc.
  apply andb_prop in Hc. destruct Hc as [Hc Hsq].
  apply andb_prop in Hc. destruct Hc as [Hsp Hdq].
  apply negb_true_iff in Hsp, Hdq, Hsq.
  cbn [app split_words]. rewrite Hsp, Hdq, Hsq.
  rewrite IH by exact Hcs. f_equal.
  destruct cs as [|c' cs]; [reflexivity|].
  cbn [started]. f_equal. cbn [rev]. now rewrite <- !app_assoc.
Qed.

Lemma split_quoted (qs : list ascii) :
  forall (rest t : list ascii),
  forallb (fun c => negb (Ascii.eqb c dquote)) qs = true ->
  split_words (qs ++ dquote :: rest) InDouble (Some t) =
  split_words rest Unquoted (Some (rev qs ++ t)).
Proof.
  induction qs as [|c qs IH]; intros rest t Hq.
  - cbn [app split_words]. now rewrite Ascii.eqb_refl.
  - simpl in Hq. apply andb_prop in Hq. destruct Hq as [Hc Hqs].
    apply negb_true_iff in Hc.
    cbn [app split_words]. rewrite Hc. cbn [started].
    rewrite IH by exact Hqs. cbn [rev]. now rewrite <- app_assoc.
Qed.

Lemma split_last_word (w q : string) :
  plain_text w = true -> quotable q = true ->
  split_words
    (list_ascii_of_string
       (w ++ String dquote (q ++ String dquote EmptyString)))
    Unquoted None = [(w ++ q)%string].
Proof.
  unfold plain_text, quotable. intros Hw Hq.
  rewrite chars_app. cbn [list_ascii_of_string]. rewrite chars_app.
  cbn [list_ascii_of_string].
  rewrite split_plain by exact Hw.
  set (tok := match list_ascii_of_string w with
              | [] => None
              | _ :: _ => Some (rev (list_ascii_of_string w) ++ started None)
              end).
  assert (Htok : started tok = rev (list_ascii_of_string w)).
  { subst tok. destruct (list_ascii_of_string w); [reflexivity|].
    cbn [started]. apply app_nil_r. }
  assert (Hstep : forall rest,
            split_words (dquote :: rest) Unquoted tok =
            split_words rest InDouble (Some (started tok)))
    by reflexivity.
  rewrite Hstep, split_quoted by exact Hq.
  cbn [split_words]. unfold token. rewrite Htok.
  rewrite rev_app_distr, !rev_involutive.
  f_equal. rewrite <- (string_of_list_ascii_of_string (w ++ q)).
  now rewrite chars_app.
Qed.

Lemma concat_cons (sep x : string) (l : list string) :
  l <> [] -> String.concat sep (x :: l) = (x ++ sep ++ String.concat sep l)%string.
Proof. destruct l; [contradiction | reflexivity]. Qed.

(** Splitting a command line gives back its words, the quotes dropped. *)
Lemma shlex_split_command_line (ws : list string) (w q : string) :
  Forall (fun x => x <> EmptyString /\ plain_text x = true) ws ->
  plain_text w = true -> quotable q = true ->
  shlex_split (command_line ws w q) = (ws ++ [(w ++ q)%string])%list.
Proof.
  intros Hws Hw Hq. unfold shlex_split, command_line.
  induction Hws as [|x ws [Hne Hx] _ IH]; cbn [app].
  - cbn [String.concat]. now apply split_last_word.
  - rewrite concat_cons by (destruct ws; discriminate).
    rewrite chars_app. cbn [append list_ascii_of_string].
    unfold plain_text in Hx. rewrite split_plain by exact Hx.
    destruct (list_ascii_of_string x) as [|c cs] eqn:Ex.
    + exfalso. apply Hne.
      rewrite <- (string_of_list_ascii_of_string x), Ex. reflexivity.
    + assert (Hstep : forall t rest,
                split_words (" "%char :: rest) Unquoted (Some t) =
                token t :: split_words rest Unquoted None)
        by reflexivity.
      rewrite Hstep, IH. f_equal.
      unfold token. cbn [started]. rewrite app_nil_r, rev_involutive.
      rewrite <- Ex. apply string_of_list_ascii_of_string.
Qed.

(** C9: the runner spawns the words of [blender_cmd], split as a shell
    splits them, then [--enable-autoexec -noaudio --background], the blend
    file, [--python-exit-code 47] whatever the frames are, and
    [--python-expr] with the script that sets [frame_start] and
    [frame_end] to the values of the settings, mixes the sound down to
    [render_output] as FLAC in a FLAC container with accuracy 128, and
    quits; stdin is DEVNULL and stderr is merged into the pipe of stdout.
    For the settings of scenario S1 this is exactly the argv of the
    scenario, with [expected_script] of the test as the script. *)
Theorem C9_render_audio_spawn :
  (forall (ws : list string) (w q : string) (first last : Z)
          (blend output : string),
     Forall (fun x => x <> EmptyString /\ plain_text x = true) ws ->
     plain_text w = true -> quotable q = true ->
     run (mkSettings (command_line ws w q) first last blend output) =
     mkSpawn
       (ws ++
        [ (w ++ q)%string;
          "--enable-autoexec"; "-noaudio"; "--background"; blend;
          "--python-exit-code"; "47";
          "--python-expr";
          "import bpy" ++ newline ++
          ("bpy.context.scene.frame_start = " ++ str first) ++ newline ++
          ("bpy.context.scene.frame_end = " ++ str last) ++ newline ++
          ("bpy.ops.sound.mixdown(filepath='" ++ output
             ++ "', codec='FLAC', container='FLAC', accuracy=128)")
          ++ newline ++
          "bpy.ops.wm.quit_blender()" ]%string)
       DEVNULL PIPE STDOUT) /\
  S1_settings =
    mkSettings
      (command_line ["/usr/bin/blender"; "--with"]%string "--cli="
         "args for CLI")
      1 47 "/x/f.blend" "/tmp/output.flac" /\
  run S1_settings =
  mkSpawn
    [ "/usr/bin/blender"; "--with"; "--cli=args for CLI";
      "--enable-autoexec"; "-noaudio"; "--background"; "/x/f.blend";
      "--python-exit-code"; "47";
      "--python-expr"; expected_script ]%string
    DEVNULL PIPE STDOUT.
Proof.
  assert (Hgen : forall (ws : list string) (w q : string) (first last : Z)
                        (blend output : string),
            Forall (fun x => x <> EmptyString /\ plain_text x = true) ws ->
            plain_text w = true -> quotable q = true ->
            run (mkSettings (command_line ws w q) first last blend output) =
            mkSpawn
              (ws ++
               [ (w ++ q)%string;
                 "--enable-autoexec"; "-noaudio"; "--background"; blend;
                 "--python-exit-code"; "47";
                 "--python-expr";
                 "import bpy" ++ newline ++
                 ("bpy.context.scene.frame_start = " ++ str first)
                 ++ newline ++
                 ("bpy.context.scene.frame_end = " ++ str last) ++ newline ++
                 ("bpy.ops.sound.mixdown(filepath='" ++ output
                    ++ "', codec='FLAC', container='FLAC', accuracy=128)")
                 ++ newline ++
                 "bpy.ops.wm.quit_blender()" ]%string)
              DEVNULL PIPE STDOUT).
  { intros ws w q first last blend output Hws Hw Hq.
    unfold run. cbn [blender_cmd filepath].
    rewrite shlex_split_command_line by assumption.
    rewrite <- app_assoc. reflexivity. }
  split; [exact Hgen|]. split; [reflexivity|].
  change S1_settings
    with (mkSettings
            (command_line ["/usr/bin/blender"; "--with"]%string "--cli="
               "args for CLI")
            1 47 "/x/f.blend" "/tmp/output.flac").
  rewrite Hgen; [reflexivity | | reflexivity | reflexivity].
  repeat constructor; discriminate.
Qed.

End RenderAudioFacts.

(** Other settings than those of the scenario: the exit code stays 47 and
    the script takes the frames and the output from the settings. *)
Lemma C9_witness :
  RenderAudio.run
    (RenderAudio.mkSettings
       (RenderAudio.command_line ["/opt/blender/blender"; "-y"]%string
          "--log=" "render log.txt")
       10 250 "/shots/a.blend" "/out/a.flac") =
  RenderAudio.mkSpawn
    [ "/opt/blender/blender"; "-y"; "--log=render log.txt";
      "--enable-autoexec"; "-noaudio"; "--background"; "/shots/a.blend";
      "--python-exit-code"; "47";
      "--python-expr";
      "import bpy" ++ RenderAudio.newline ++
      "bpy.context.scene.frame_start = 10" ++ RenderAudio.newline ++
      "bpy.context.scene.frame_end = 250" ++ RenderAudio.newline ++
      "bpy.ops.sound.mixdown(filepath='/out/a.flac', codec='FLAC', container='FLAC', accuracy=128)"
      ++ RenderAudio.newline ++
      "bpy.ops.wm.quit_blender()" ]%string
    RenderAudio.DEVNULL RenderAudio.PIPE RenderAudio.STDOUT.
Proof.
  destruct C9_render_audio_spawn as [Hgen _].
  rewrite Hgen; [reflexivity | | reflexivity | reflexivity].
  repeat constructor; discriminate.
Defined.

(** * Cleaning the scratch directory *)

Section CleanDirFacts.

Import CleanDir.

Variable keep_job : pyvalue.

(** Induction along the entries of one directory. *)
Lemma forest_entries_ind (Q : forest -> Prop) :
  Q Fnil ->
  (forall name d rest, Q rest -> Q (Fcons name d rest)) ->
  forall f, Q f.
Proof.
  intros Hnil Hcons. fix IH 1. intros [|name d rest].
  - exact Hnil.
  - apply Hcons, IH.
Qed.

Lemma blocked_in_split (f : forest) :
  blocked_in keep_job f = any_blocked keep_job f || any_stuck keep_job f.
Proof.
  induction f as [|name d rest IH] using forest_entries_ind;
    [reflexivity|].
  simpl. rewrite IH.
  destruct (blocked keep_job d), (negb (kept_dir keep_job name)
                                  && holds_kept keep_job d),
    (any_blocked keep_job rest), (any_stuck keep_job rest); reflexivity.
Qed.

Lemma survivors_in_nil (f : forest) :
  survivors_in keep_job f = Fnil <-> has_kept_dir keep_job f = false.
Proof.
  induction f as [|name d rest IH] using forest_entries_ind; simpl;
    [easy|].
  destruct (kept_dir keep_job name); simpl; [easy | exact IH].
Qed.

Lemma filter_nil_existsb (A : Type) (p : A -> bool) (l : list A) :
  filter p l = [] <-> existsb p l = false.
Proof.
  induction l as [|a l IH]; simpl; [easy|].
  destruct (p a); simpl; [easy | exact IH].
Qed.

Lemma is_empty_survivors (d : dir) :
  is_empty (survivors keep_job d) = negb (holds_kept keep_job d).
Proof.
  destruct d as [files subdirs]. simpl.
  destruct (existsb (kept_file keep_job) files) eqn:Hf.
  - destruct (filter (kept_file keep_job) files) eqn:E; [|reflexivity].
    apply filter_nil_existsb in E. congruence.
  - apply filter_nil_existsb in Hf. rewrite Hf. simpl.
    destruct (has_kept_dir keep_job subdirs) eqn:Hd.
    + destruct (survivors_in keep_job subdirs) eqn:E; [|reflexivity].
      apply survivors_in_nil in E. congruence.
    + apply survivors_in_nil in Hd. now rewrite Hd.
Qed.

Lemma remove_dirs_walked (f : forest) :
  (any_stuck keep_job f = true ->
   fst (remove_dirs keep_job (walked keep_job f)) = OSError) /\
  (any_stuck keep_job f = false ->
   remove_dirs keep_job (walked keep_job f) =
     (Done, survivors_in keep_job f)).
Proof.
  induction f as [|name d rest IH] using forest_entries_ind; simpl;
    [easy|].
  destruct IH as [Hstuck Hfree].
  destruct (kept_dir keep_job name); simpl.
  - destruct (any_stuck keep_job rest).
    + split; [|discriminate]. intros _. specialize (Hstuck eq_refl).
      destruct (remove_dirs keep_job (walked keep_job rest)). exact Hstuck.
    + split; [discriminate|]. intros _. now rewrite Hfree.
  - rewrite is_empty_survivors.
    destruct (holds_kept keep_job d); simpl; [now split|].
    exact (conj Hstuck Hfree).
Qed.

Lemma walk_characterised :
  (forall d,
     (blocked keep_job d = true -> fst (walk keep_job d) = OSError) /\
     (blocked keep_job d = false ->
      walk keep_job d = (Done, survivors keep_job d))) /\
  (forall f,
     (any_blocked keep_job f = true ->
      fst (walk_subdirs keep_job f) = OSError) /\
     (any_blocked keep_job f = false ->
      walk_subdirs keep_job f = (Done, walked keep_job f))).
Proof.
  apply dir_and_forest_ind.
  - intros files subdirs [Hbad Hgood]. simpl.
    rewrite blocked_in_split.
    destruct (any_blocked keep_job subdirs); simpl.
    + split; [|discriminate]. intros _. specialize (Hbad eq_refl).
      destruct (walk_subdirs keep_job subdirs) as [[] ?];
        [discriminate | reflexivity].
    + rewrite (Hgood eq_refl).
      destruct (remove_dirs_walked subdirs) as [Hstuck Hfree].
      destruct (any_stuck keep_job subdirs).
      * split; [|discriminate]. intros _. specialize (Hstuck eq_refl).
        destruct (remove_dirs keep_job (walked keep_job subdirs)).
        exact Hstuck.
      * split; [discriminate|]. intros _.
        unfold remove_files. now rewrite (Hfree eq_refl).
  - simpl. now split.
  - intros name d [Hbad Hgood] rest [Hbad' Hgood']. simpl.
    destruct (blocked keep_job d); simpl.
    + split; [|discriminate]. intros _. specialize (Hbad eq_refl).
      destruct (walk keep_job d) as [[] ?]; [discriminate | reflexivity].
    + rewrite (Hgood eq_refl).
      destruct (any_blocked keep_job rest).
      * split; [|discriminate]. intros _. specialize (Hbad' eq_refl).
        destruct (walk_subdirs keep_job rest). exact Hbad'.
      * split; [discriminate|]. intros _. now rewrite (Hgood' eq_refl).
Qed.

(** X14: [clean_dir] on an existing directory raises OSError exactly when,
    somewhere below it, a directory that is not named [str(keep_job)]
    holds a file named [taskfile_<keep_job>.zip] or a directory named
    [str(keep_job)]; otherwise it returns, and what is left is what is
    kept: the kept files and kept directories of the directory, and of
    these only what is kept in turn.  On a missing directory it does
    nothing. *)
Theorem X14_clean_dir_raises_iff_blocked (d : dir) :
  (fst (clean_dir (Some d) keep_job) = OSError <->
   blocked keep_job d = true) /\
  (blocked keep_job d = false ->
   clean_dir (Some d) keep_job = (Done, Some (survivors keep_job d))) /\
  clean_dir None keep_job = (Done, None).
Proof.
  destruct walk_characterised as [Hwalk _].
  destruct (Hwalk d) as [Hbad Hgood]. unfold clean_dir.
  split; [|split; [|reflexivity]].
  - destruct (blocked keep_job d).
    + specialize (Hbad eq_refl).
      destruct (walk keep_job d); simpl in *. now split.
    + rewrite (Hgood eq_refl). simpl. split; discriminate.
  - intros Hfree. now rewrite (Hgood Hfree).
Qed.

Lemma nothing_kept_facts :
  (forall d,
     nothing_kept keep_job d = true ->
     blocked keep_job d = false /\ holds_kept keep_job d = false /\
     survivors keep_job d = Dir [] Fnil) /\
  (forall f,
     nothing_kept_in keep_job f = true ->
     blocked_in keep_job f = false /\ has_kept_dir keep_job f = false /\
     survivors_in keep_job f = Fnil).
Proof.
  apply dir_and_forest_ind.
  - intros files subdirs IH. simpl. intros H.
    apply andb_prop in H. destruct H as [Hf Hs].
    apply negb_true_iff in Hf.
    destruct (IH Hs) as (Hb & Hk & Hsurv).
    rewrite Hf, Hk, Hsurv. apply filter_nil_existsb in Hf.
    rewrite Hf. now repeat split.
  - now repeat split.
  - intros name d IHd rest IHr. simpl. intros H.
    apply andb_prop in H. destruct H as [H Hr].
    apply andb_prop in H. destruct H as [Hn Hd].
    apply negb_true_iff in Hn.
    destruct (IHd Hd) as (Hb & Hk & _). destruct (IHr Hr) as (Hb' & Hk' & Hs').
    rewrite Hn, Hb, Hk, Hb', Hk', Hs'. now repeat split.
Qed.

(** X15: when no file in or below the directory is named
    [taskfile_<keep_job>.zip] and no directory is named [str(keep_job)],
    [clean_dir] returns without error and leaves the directory in place
    and empty, whatever it held. *)
Theorem X15_clean_dir_empties_the_directory (d : dir) :
  nothing_kept keep_job d = true ->
  clean_dir (Some d) keep_job = (Done, Some (Dir [] Fnil)).
Proof.
  intros Hnone. destruct nothing_kept_facts as [Hfacts _].
  destruct (Hfacts d Hnone) as (Hfree & _ & Hsurv).
  destruct walk_characterised as [Hwalk _].
  destruct (Hwalk d) as [_ Hgood].
  unfold clean_dir. now rewrite (Hgood Hfree), Hsurv.
Qed.

Lemma filter_filter (A : Type) (p : A -> bool) (l : list A) :
  filter p (filter p l) = filter p l.
Proof.
  induction l as [|a l IH]; simpl; [reflexivity|].
  destruct (p a) eqn:E; simpl; [rewrite E, IH|]; easy.
Qed.

Lemma survivors_settled :
  (forall d,
     blocked keep_job (survivors keep_job d) = false /\
     survivors keep_job (survivors keep_job d) = survivors keep_job d) /\
  (forall f,
     blocked_in keep_job (survivors_in keep_job f) = false /\
     survivors_in keep_job (survivors_in keep_job f) =
       survivors_in keep_job f).
Proof.
  apply dir_and_forest_ind.
  - intros files subdirs [Hb Hs]. simpl. now rewrite Hb, Hs, filter_filter.
  - now split.
  - intros name d [Hb Hs] rest [Hb' Hs']. simpl.
    destruct (kept_dir keep_job name) eqn:Hk; simpl; [|now split].
    now rewrite Hk, Hb, Hb', Hs, Hs'.
Qed.

(** X16: cleaning twice is cleaning once.  When [clean_dir] has returned
    without error, calling it again on what it left returns without error
    and removes nothing. *)
Theorem X16_clean_dir_is_idempotent (d d' : dir) :
  clean_dir (Some d) keep_job = (Done, Some d') ->
  clean_dir (Some d') keep_job = (Done, Some d').
Proof.
  intros Hfirst.
  destruct walk_characterised as [Hwalk _].
  destruct (Hwalk d) as [Hbad Hgood].
  assert (Hd' : d' = survivors keep_job d).
  { unfold clean_dir in Hfirst.
    destruct (blocked keep_job d).
    - specialize (Hbad eq_refl). destruct (walk keep_job d) as [r x].
      simpl in Hbad. subst r. discriminate.
    - rewrite (Hgood eq_refl) in Hfirst. now injection Hfirst as <-. }
  subst d'. destruct survivors_settled as [Hsettled _].
  destruct (Hsettled d) as [Hfree Hsame].
  destruct (Hwalk (survivors keep_job d)) as [_ Hgood'].
  unfold clean_dir. now rewrite (Hgood' Hfree), Hsame.
Qed.

Lemma has_file_empty (d : dir) (path : list string) (name : string) :
  is_empty d = true -> ~ has_file d path name.
Proof.
  destruct d as [[|f files] [|n sd rest]]; try discriminate.
  intros _. destruct path; simpl; easy.
Qed.

Lemma remove_dirs_has_file (f : forest) (step : string)
    (path : list string) (name : string) :
  has_file_in f step path name <->
  has_file_in (snd (remove_dirs keep_job f)) step path name.
Proof.
  induction f as [|n d rest IH] using forest_entries_ind; simpl; [easy|].
  destruct (kept_dir keep_job n).
  - destruct (remove_dirs keep_job rest) as [r rest']. simpl in *.
    now rewrite IH.
  - destruct (is_empty d) eqn:He; [|reflexivity].
    rewrite <- IH. split; [|now right].
    intros [[_ Hd]|Hr]; [|exact Hr].
    now apply has_file_empty in Hd.
Qed.

Lemma walk_has_file :
  (forall d path name,
     (has_file d path name -> kept_file keep_job name = true ->
      has_file (snd (walk keep_job d)) path name) /\
     (has_file (snd (walk keep_job d)) path name -> has_file d path name)) /\
  (forall f step path name,
     (has_file_in f step path name -> kept_file keep_job name = true ->
      has_file_in (snd (walk_subdirs keep_job f)) step path name) /\
     (has_file_in (snd (walk_subdirs keep_job f)) step path name ->
      has_file_in f step path name)).
Proof.
  apply dir_and_forest_ind.
  - intros files subdirs IH path name. simpl.
    destruct (walk_subdirs keep_job subdirs) as [[] subdirs'] eqn:Hw;
      simpl in IH.
    + destruct (remove_dirs keep_job subdirs') as [r subdirs''] eqn:Hr.
      assert (Hrm : forall step path' ,
                has_file_in subdirs' step path' name <->
                has_file_in subdirs'' step path' name).
      { intros. rewrite (remove_dirs_has_file subdirs'), Hr. reflexivity. }
      destruct path as [|step path']; simpl.
      * unfold remove_files. rewrite filter_In. split; [now split | easy].
      * rewrite <- Hrm. apply IH.
    + destruct path as [|step path']; simpl; [easy | apply IH].
  - simpl. easy.
  - intros n d IHd rest IHr step path name. simpl.
    destruct (walk keep_job d) as [[] d'] eqn:Hw; simpl in IHd.
    + destruct (walk_subdirs keep_job rest) as [r rest'] eqn:Hr.
      simpl in IHr |- *. split.
      * intros [[-> Hd]|Hrest] Hk;
          [left; split; [reflexivity | now apply IHd]
          | right; now apply IHr].
      * intros [[-> Hd]|Hrest];
          [left; split; [reflexivity | now apply IHd]
          | right; now apply IHr].
    + simpl. split.
      * intros [[-> Hd]|Hrest] Hk;
          [left; split; [reflexivity | now apply IHd] | now right].
      * intros [[-> Hd]|Hrest];
          [left; split; [reflexivity | now apply IHd] | now right].
Qed.

(** X17: whether it returns or raises, [clean_dir] never removes a file
    named [taskfile_<keep_job>.zip], wherever it is and whatever directory
    holds it, and it never creates anything: every file found afterwards
    was there before, at the same place. *)
Theorem X17_clean_dir_never_removes_a_kept_file (d : dir) :
  exists d',
    snd (clean_dir (Some d) keep_job) = Some d' /\
    forall path name,
      (has_file d path name -> kept_file keep_job name = true ->
       has_file d' path name) /\
      (has_file d' path name -> has_file d path name).
Proof.
  exists (snd (walk keep_job d)). split.
  - unfold clean_dir. now destruct (walk keep_job d).
  - destruct walk_has_file as [Hwalk _]. apply Hwalk.
Qed.


Lemma existsb_kept (name : string) (files : list string) :
  In name files -> kept_file keep_job name = true ->
  existsb (kept_file keep_job) files = true.
Proof.
  intros Hin Hk. apply existsb_exists. now exists name.
Qed.

Lemma kept_file_blocks :
  (forall d path name,
     path <> [] ->
     has_file d path name -> kept_file keep_job name = true ->
     kept_dir keep_job (last path EmptyString) = false ->
     blocked keep_job d = true) /\
  (forall f step path name,
     has_file_in f step path name -> kept_file keep_job name = true ->
     kept_dir keep_job (last (step :: path) EmptyString) = false ->
     blocked_in keep_job f = true).
Proof.
  apply dir_and_forest_ind.
  - intros files subdirs IH [|step path] name Hne Hfile Hk Hlast;
      [contradiction|].
    simpl in *. now apply IH with (2 := Hk) (3 := Hlast).
  - intros step path name [].
  - intros n d IHd rest IHr step path name Hfile Hk Hlast.
    cbn [has_file_in] in Hfile. cbn [blocked_in].
    destruct Hfile as [[-> Hd]|Hrest].
    + destruct path as [|s path].
      * cbn [last] in Hlast. rewrite Hlast.
        destruct d as [files subdirs]. cbn [has_file] in Hd.
        cbn [holds_kept]. rewrite (existsb_kept _ _ Hd Hk).
        cbn [negb andb orb]. now rewrite orb_true_r.
      * rewrite (IHd (s :: path) name); [reflexivity|discriminate| | |];
          assumption.
    + rewrite (IHr step path name Hrest Hk Hlast). now rewrite orb_true_r.
Qed.

(** X20: a file named [taskfile_<keep_job>.zip] is kept only at the price
    of an error when it lies in a subdirectory that is not named
    [str(keep_job)]: the file stays, so [os.rmdir] of that subdirectory
    fails and [clean_dir] raises OSError.  With the default
    [keep_job=None] this is so for any file named [taskfile_None.zip]. *)
Theorem X20_kept_file_in_other_directory_raises
    (d : dir) (path : list string) (name : string) :
  path <> [] ->
  has_file d path name ->
  kept_file keep_job name = true ->
  kept_dir keep_job (last path EmptyString) = false ->
  fst (clean_dir (Some d) keep_job) = OSError.
Proof.
  intros Hne Hfile Hk Hlast.
  destruct kept_file_blocks as [Hblocks _].
  pose proof (Hblocks d path name Hne Hfile Hk Hlast) as Hb.
  destruct walk_characterised as [Hwalk _].
  destruct (Hwalk d) as [Hbad _]. specialize (Hbad Hb).
  unfold clean_dir. now destruct (walk keep_job d).
Qed.


End CleanDirFacts.

(** * Further properties, on concrete inputs *)

(** Of three queued rows the first was unqueued; on the same connection
    the next update gets rowid 4, and [_queue] yields the rows 2, 3, 4. *)
Lemma X2_witness :
  let w := snd (_unqueue (Payload := Scenario.Payload) 1
                  (Scenario.enqueue_all (Scenario.updates 3)
                     (Scenario.start []))) in
  _db (self w) = Some Connection /\
  table_ok (fworker_queue (self w)) /\
  fst (bind (queue_all Scenario.pickle_dumps [Scenario.update 4])
         (fun _ => _queue Scenario.pickle_loads
                     (Manager := Scenario.Manager)) w) =
  Returned [(2, "/tasks/12345/update", "2"); (3, "/tasks/12345/update", "3");
            (4, "/tasks/12345/update", "4")]%string.
Proof.
  intros w.
  assert (Hok : table_ok (fworker_queue (self w)))
    by (vm_compute; repeat constructor).
  split; [reflexivity|]. split; [exact Hok|].
  exact (@X2_queue_then__queue_round_trip _ _ Scenario.pickle_dumps
           Scenario.pickle_loads Scenario.Manager [Scenario.update 4] w
           Scenario_pickle_roundtrip eq_refl Hok).
Defined.

(** Of the rows 1, 2, 3 the one with rowid 2 is unqueued. *)
Lemma X4_witness :
  let w := Scenario.enqueue_all (Scenario.updates 3) (Scenario.start []) in
  let w' := snd (_unqueue (Payload := Scenario.Payload) 2 w) in
  _db (self w) = Some Connection /\
  table_ok (fworker_queue (self w)) /\
  map (@rowid _) (fworker_queue (self w')) = [1; 3] /\
  fst (queue_size w') = Returned 2.
Proof.
  intros w w'.
  assert (Hok : table_ok (fworker_queue (self w)))
    by (vm_compute; repeat constructor).
  split; [reflexivity|]. split; [exact Hok|].
  destruct (@X4__unqueue_removes_just_that_row Scenario.Payload _ _ 2 w
              eq_refl Hok) as (_ & _ & _ & Hrow).
  destruct (Hrow 1%nat
              (mkRow 2 "/tasks/12345/update"%string
                 (Scenario.pickle_dumps "2"%string))
              eq_refl eq_refl) as (Ht & _ & Hsize).
  split; [|exact Hsize].
  fold w' in Ht. rewrite Ht. reflexivity.
Defined.

(** Three rows, and a Manager that answers 500 to the first request. *)
Lemma X8_witness :
  let w := Scenario.enqueue_all (Scenario.updates 3)
             (Scenario.start [Scenario.answer 500]) in
  table_ok (fworker_queue (self w)) /\
  table_ok (fworker_queue (self (snd (Scenario.run_flush w)))) /\
  table_ok
    (fworker_queue
       (self (snd (work Scenario.pickle_loads Scenario.manager_post 3 w)))).
Proof.
  intros w.
  assert (Hok : table_ok (fworker_queue (self w)))
    by (vm_compute; repeat constructor).
  split; [exact Hok|].
  destruct (@X8_rowids_stay_unique_and_ascending _ _ Scenario.pickle_dumps
              Scenario.pickle_loads _ Scenario.manager_post w Hok)
    as (_ & _ & Hflush & _ & _ & Hwork).
  split; [exact Hflush | exact (Hwork 3%nat)].
Defined.

(** Three rounds of the drain loop over an empty store. *)
Lemma X9_witness :
  let w := Scenario.start [Raised ConnectionError] in
  fworker_queue (self w) = [] /\
  trace (snd (work Scenario.pickle_loads Scenario.manager_post 3 w)) =
    [EvTimeout (1 # 2)%Q; EvTimeout (1 # 2)%Q].
Proof.
  intros w. split; [reflexivity|].
  rewrite (@X9_work_on_empty_store_only_waits _ _ Scenario.pickle_loads _
             Scenario.manager_post 2 w eq_refl).
  reflexivity.
Defined.

(** Three updates and a Manager that accepts everything. *)
Lemma X10_witness :
  let w := Accepting.queued 3 in
  table_ok (fworker_queue (self w)) /\
  fworker_queue
    (self (snd (flush Scenario.pickle_loads Accepting.manager_post w))) = [] /\
  posts (trace (snd (flush Scenario.pickle_loads Accepting.manager_post w))) =
    Scenario.updates 3.
Proof.
  intros w.
  assert (Hok : table_ok (fworker_queue (self w)))
    by (vm_compute; repeat constructor).
  split; [exact Hok|].
  destruct (@X10_pass_delivers_to_cooperating_manager _ _
              Scenario.pickle_loads _ Accepting.manager_post w
              Accepting_cooperates Hok) as (b & _ & _ & _ & Hall).
  destruct (Hall ltac:(vm_compute; lia)) as [Hempty Hposts].
  split; [exact Hempty|]. rewrite Hposts. reflexivity.
Defined.

Lemma X11_witness :
  let w := Accepting.queued 3 in
  let w' := snd (work Scenario.pickle_loads Accepting.manager_post 2 w) in
  table_ok (fworker_queue (self w)) /\
  fworker_queue (self w') = [] /\
  posts (trace w') = Scenario.updates 3 /\
  _stuff_queued (self w') = false.
Proof.
  intros w w'.
  assert (Hok : table_ok (fworker_queue (self w)))
    by (vm_compute; repeat constructor).
  split; [exact Hok|].
  destruct (@X11_work_drains_to_quiescence _ _ Scenario.pickle_loads _
              Accepting.manager_post 2 w Accepting_cooperates Hok)
    as (_ & _ & _ & Hall).
  destruct (Hall ltac:(vm_compute; lia)) as (Hempty & Hposts & Hev).
  split; [exact Hempty|]. split; [|exact Hev].
  fold w' in Hposts. rewrite Hposts. reflexivity.
Defined.

(** Two rows; the Manager cannot be reached at first and answers 200
    afterwards. *)
Lemma X18_witness :
  let w := Scenario.enqueue_all (Scenario.updates 2)
             (Scenario.start [Raised ConnectionError]) in
  table_ok (fworker_queue (self w)) /\
  fst (work Scenario.pickle_loads Scenario.manager_post 3 w) = Returned tt.
Proof.
  intros w.
  assert (Hok : table_ok (fworker_queue (self w)))
    by (vm_compute; repeat constructor).
  split; [exact Hok|].
  apply (@X18_work_survives_any_manager _ _ Scenario.pickle_loads _
           Scenario.manager_post 3 w Hok).
Defined.

Lemma X19_witness :
  let w := Scenario.enqueue_all (Scenario.updates 2)
             (Scenario.start [Raised ConnectionError]) in
  let w2 := snd (Scenario.run_flush_and_catch w) in
  table_ok (fworker_queue (self w)) /\
  _stuff_queued (self w) = true /\
  Scenario.run_flush w = (Raised ConnectionError, snd (Scenario.run_flush w)) /\
  exists row rest r',
    fworker_queue (self w2) = row :: rest /\
    nth_error (trace (snd (Scenario.run_flush_and_catch w2)))
      (List.length (trace w2)) =
      Some (EvPost (url row) (Scenario.pickle_loads (payload row)) r').
Proof.
  intros w w2.
  assert (Hok : table_ok (fworker_queue (self w)))
    by (vm_compute; repeat constructor).
  split; [exact Hok|]. split; [reflexivity|]. split; [reflexivity|].
  destruct (@X19_failed_update_is_retried_after_backoff _ _
              Scenario.pickle_loads _ Scenario.manager_post w
              ConnectionError (snd (Scenario.run_flush w)) Hok eq_refl
              eq_refl)
    as (row & rest & r & r' & Hhead & _ & _ & _ & _ & _ & _ & Hretry).
  exists row, rest, r'. split; [exact Hhead | exact Hretry].
Defined.

(** A scratch directory with a task file, a job directory and a temporary
    directory, cleaned with the default [keep_job]. *)
Lemma X15_witness :
  let d := CleanDir.Dir ["a.blend"; "taskfile_7.zip"]%string
             (CleanDir.Fcons "7" (CleanDir.Dir ["x.png"%string] CleanDir.Fnil)
                (CleanDir.Fcons "tmp" (CleanDir.Dir [] CleanDir.Fnil)
                   CleanDir.Fnil)) in
  CleanDir.nothing_kept CleanDir.PyNone d = true /\
  CleanDir.clean_dir (Some d) CleanDir.PyNone =
    (CleanDir.Done, Some (CleanDir.Dir [] CleanDir.Fnil)).
Proof.
  intros d. split; [reflexivity|].
  apply (X15_clean_dir_empties_the_directory CleanDir.PyNone d eq_refl).
Defined.

(** The same directory cleaned while job 7 is kept. *)
Lemma X16_witness :
  let d := CleanDir.Dir ["a.blend"; "taskfile_7.zip"]%string
             (CleanDir.Fcons "7"
                (CleanDir.Dir ["x.png"; "taskfile_7.zip"]%string CleanDir.Fnil)
                (CleanDir.Fcons "tmp" (CleanDir.Dir ["y"%string] CleanDir.Fnil)
                   CleanDir.Fnil)) in
  let d' := CleanDir.Dir ["taskfile_7.zip"%string]
              (CleanDir.Fcons "7"
                 (CleanDir.Dir ["taskfile_7.zip"%string] CleanDir.Fnil)
                 CleanDir.Fnil) in
  CleanDir.clean_dir (Some d) (CleanDir.PyInt 7) = (CleanDir.Done, Some d') /\
  CleanDir.clean_dir (Some d') (CleanDir.PyInt 7) = (CleanDir.Done, Some d').
Proof.
  intros d d'.
  assert (H : CleanDir.clean_dir (Some d) (CleanDir.PyInt 7)
              = (CleanDir.Done, Some d')) by reflexivity.
  split; [exact H|].
  exact (X16_clean_dir_is_idempotent (CleanDir.PyInt 7) d H).
Defined.

(** The default [keep_job] and a file named after it, two levels down. *)
Lemma X20_witness :
  let d := CleanDir.Dir []
             (CleanDir.Fcons "jobs"
                (CleanDir.Dir ["a.blend"%string]
                   (CleanDir.Fcons "old"
                      (CleanDir.Dir ["taskfile_None.zip"%string] CleanDir.Fnil)
                      CleanDir.Fnil))
                CleanDir.Fnil) in
  CleanDir.has_file d ["jobs"; "old"]%string "taskfile_None.zip" /\
  CleanDir.kept_file CleanDir.PyNone "taskfile_None.zip" = true /\
  CleanDir.kept_dir CleanDir.PyNone "old" = false /\
  fst (CleanDir.clean_dir (Some d) CleanDir.PyNone) = CleanDir.OSError.
Proof.
  intros d.
  assert (Hfile : CleanDir.has_file d ["jobs"; "old"]%string
                    "taskfile_None.zip")
    by (simpl; left; split; [reflexivity|]; left; split; [reflexivity|];
        left; reflexivity).
  split; [exact Hfile|]. split; [reflexivity|]. split; [reflexivity|].
  apply (@X20_kept_file_in_other_directory_raises CleanDir.PyNone d
           ["jobs"; "old"]%string "taskfile_None.zip"%string);
    [discriminate | exact Hfile | reflexivity | reflexivity].
Defined.
